(** * praye.js: prayer-time computation, embedded and verified

    A shallow embedding of [src/dmath.ts] (the degree-based trigonometric
    helpers and [fix]), [src/astronomy.ts] (Julian day, solar position,
    sun-angle solver) and [src/prayer.ts] (calculation methods, presets,
    [PrayerManager]).

    The JavaScript type [number] is an interface ([Number]) with two
    interpretations:
    - [ieee]: IEEE-754 binary64 with round-to-nearest-even, which is what
      the program runs on (Rocq's primitive floats; [%] is the exact
      floating-point remainder);
    - [exact]: rational arithmetic without rounding, the idealisation in
      which statements about "real numbers" are read.
    The program text is written once, over the interface.

    The transcendental members of [Math] (sin, cos, tan, asin, acos, atan,
    atan2) are implementation-approximated in ECMAScript, so they are a
    parameter ([MathLib]); [ECMAScriptMath] records the results the standard
    fixes (NaN outside the domain), and [refMath] is one executable
    implementation used to evaluate the program on concrete inputs. *)

From stdpp Require Import gmap strings.
From Stdlib Require Import ZArith QArith Qround Qabs Floats Lia Lqa.

Set Warnings "-inexact-float".

(** ** The [number] interface *)

Declare Scope num_scope.
Delimit Scope num_scope with num.

Class Number : Type := {
  number : Type;
(** a decimal literal of the source text *)
  lit : Q -> number;
(** an integer produced by the runtime (a [Date] component) *)
  of_int : Z -> number;
  nadd : number -> number -> number;
  nsub : number -> number -> number;
  nmul : number -> number -> number;
  ndiv : number -> number -> number;
(** the [%] operator: remainder of the truncated division *)
  nrem : number -> number -> number;
  nneg : number -> number;
(** the [<] operator ([a > b] is [b < a]) *)
  nltb : number -> number -> bool;
  Math_abs : number -> number;
  Math_floor : number -> number;
}.

Arguments lit {_} _%_Q.
Arguments of_int {_} _%_Z.

Notation "x + y" := (nadd x y) : num_scope.
Notation "x - y" := (nsub x y) : num_scope.
Notation "x * y" := (nmul x y) : num_scope.
Notation "x / y" := (ndiv x y) : num_scope.
Notation "x 'mod' y" := (nrem x y) : num_scope.
Notation "- x" := (nneg x) : num_scope.
Notation "x <? y" := (nltb x y) : num_scope.
Notation "x >? y" := (nltb y x) : num_scope.

(** ** IEEE-754 binary64 *)

(** The integer [z] as a double (round to nearest even beyond 2^53). *)
Definition Z2float (z : Z) : float :=
  SF2Prim (binary_normalize prec emax z 0 false).

(** A decimal literal [n/10^k]: numerator and denominator of every literal
    of the program are below 2^53, so the division rounds the literal's value
    once, as the parser does. *)
Definition Q2float (q : Q) : float :=
  (Z2float (Qnum q) / Z2float (Zpos (Qden q)))%float.

(** [a % b] on doubles: the remainder of the truncated division, computed
    exactly; it has the sign of the dividend. NaN when [a] is infinite or
    [b] is zero; [a] itself when [b] is infinite or [a] is zero. *)
Definition fmod (a b : float) : float :=
  match Prim2SF a, Prim2SF b with
  | S754_nan, _ | _, S754_nan => nan
  | S754_infinity _, _ => nan
  | _, S754_zero _ => nan
  | S754_zero _, _ => a
  | S754_finite _ _ _, S754_infinity _ => a
  | S754_finite sa ma ea, S754_finite _ mb eb =>
      let e := Z.min ea eb in
      let A := (Zpos ma * 2 ^ (ea - e))%Z in
      let B := (Zpos mb * 2 ^ (eb - e))%Z in
      let r := Z.rem A B in
      SF2Prim (binary_normalize prec emax (if sa then - r else r)%Z e sa)
  end.

(** [Math.floor] on doubles (exact). *)
Definition ffloor (a : float) : float :=
  match Prim2SF a with
  | S754_finite s m e =>
      if (0 <=? e)%Z then a
      else SF2Prim (binary_normalize prec emax
                      (Z.shiftr (if s then Zneg m else Zpos m) (- e)) 0 s)
  | _ => a
  end.

(** [Number.isNaN]. *)
Definition isNaN (a : float) : bool :=
  match Prim2SF a with S754_nan => true | _ => false end.

(** [Number.isFinite]: neither NaN nor an infinity. *)
Definition isFinite (a : float) : bool :=
  match Prim2SF a with
  | S754_nan | S754_infinity _ => false
  | _ => true
  end.

Definition ieee : Number := {|
  number := float;
  lit := Q2float;
  of_int := Z2float;
  nadd := PrimFloat.add;
  nsub := PrimFloat.sub;
  nmul := PrimFloat.mul;
  ndiv := PrimFloat.div;
  nrem := fmod;
  nneg := PrimFloat.opp;
  nltb := PrimFloat.ltb;
  Math_abs := PrimFloat.abs;
  Math_floor := ffloor;
|}.

(** ** Exact rational arithmetic *)

(** Truncation toward zero. *)
Definition Qtrunc (q : Q) : Z := Z.quot (Qnum q) (Zpos (Qden q)).

Definition Qrem (a b : Q) : Q := (a - b * inject_Z (Qtrunc (a / b)))%Q.

Definition Qltb (a b : Q) : bool := negb (Qle_bool b a).

Definition exact : Number := {|
  number := Q;
  lit := fun q => q;
  of_int := inject_Z;
  nadd := Qplus;
  nsub := Qminus;
  nmul := Qmult;
  ndiv := Qdiv;
  nrem := Qrem;
  nneg := Qopp;
  nltb := Qltb;
  Math_abs := Qabs;
  Math_floor := fun q => inject_Z (Qfloor q);
|}.

(** ** The implementation-approximated part of [Math] *)

Record MathLib {N : Number} : Type := {
  Math_PI : number;
  Math_sin : number -> number;
  Math_cos : number -> number;
  Math_tan : number -> number;
  Math_asin : number -> number;
  Math_acos : number -> number;
  Math_atan : number -> number;
  Math_atan2 : number -> number -> number;
}.
Arguments MathLib N : clear implicits.

(** What ECMAScript (sec. 21.3.2.2, [Math.acos]) fixes about [Math.acos] on
    doubles: NaN for a NaN argument and for an argument outside [-1, 1]. *)
Record ECMAScriptMath (M : MathLib ieee) : Prop := {
  acos_NaN : Math_acos M nan = nan;
  acos_above : forall x : float, (1 <? x)%float = true -> Math_acos M x = nan;
  acos_below : forall x : float, (x <? -1)%float = true -> Math_acos M x = nan;
}.

(** ** src/dmath.ts *)

Section DMath.
Context {N : Number} (M : MathLib N).
Local Open Scope num_scope.

Definition toRadians (degrees : number) : number :=
  degrees * (Math_PI M / lit 180).

Definition toDegrees (radians : number) : number :=
  (radians * lit 180) / Math_PI M.

Definition sin (degrees : number) : number := Math_sin M (toRadians degrees).
Definition cos (degrees : number) : number := Math_cos M (toRadians degrees).
Definition tan (degrees : number) : number := Math_tan M (toRadians degrees).
Definition arcsin (degrees : number) : number := toDegrees (Math_asin M degrees).
Definition arccos (degrees : number) : number := toDegrees (Math_acos M degrees).
Definition arccot (degrees : number) : number :=
  toDegrees (Math_atan M (lit 1 / degrees)).
Definition arctan2 (y x : number) : number := toDegrees (Math_atan2 M y x).
End DMath.

Section Fix.
Context {N : Number}.
Local Open Scope num_scope.

(** [fix] of the source ([fix] is a keyword here). *)
Definition fix_ (a b : number) : number :=
  let fixed := a mod b in
  if fixed <? lit 0 then fixed + b else fixed.

Definition fixAngle (angle : number) : number := fix_ angle (lit 360).
Definition fixHour (hour : number) : number := fix_ hour (lit 24).
End Fix.

(** ** src/astronomy.ts *)

(** The local calendar components a [Date] reports. *)
Record Date : Type := {
  getFullYear : Z;
(** zero-based *)
  getMonth : Z;
  getDate : Z;
}.

(** [[latitude, longitude, altitude?]] *)
Record Coordinates {N : Number} : Type := {
  latitude : number;
  longitude : number;
  altitude : option number;
}.
Arguments Coordinates N : clear implicits.

Section Astronomy.
Context {N : Number} (M : MathLib N).
Local Open Scope num_scope.

Definition getJulianDay (date : Date) : number :=
  let year := of_int (getFullYear date) in
  let month := of_int (getMonth date) + lit 1 in
  let day := of_int (getDate date) in
  let '(year, month) :=
    if month <? lit 3 then (year - lit 1, month + lit 12) else (year, month) in
  Math_floor (lit 365.2425 * year + lit 30.6001 * month) + day + lit 1721027.5.

(** [[decl, eqt]] *)
Definition sunPosition (jd : number) : number * number :=
  let D := jd - lit 2451545 in
  let q := fixAngle (lit 280.46061837 + lit 0.98564736 * D) in
  let g := fixAngle (lit 357.528 + lit 0.98560028 * D) in
  let L := fixAngle (q + lit 1.915 * sin M g + lit 0.02 * sin M (lit 2 * g)) in
  let e := lit 23.439 - lit 0.00000036 * D in
  let decl := arcsin M (sin M e * sin M L) in
  let eqt := q / lit 15 - fixHour (arctan2 M (cos M e * sin M L) (cos M L) / lit 15) in
  (decl, eqt).

Definition midDay (julianDate time : number) : number :=
  let eqt := snd (sunPosition (julianDate + time)) in
  fixHour (lit 12 - eqt).

(** The argument handed to [arccos] inside [sunAngleTime]. *)
Definition sunAngleArg (julianDate latitude angle time : number) : number :=
  let '(decl, eqt) := sunPosition (julianDate + time) in
  (- sin M angle - sin M decl * sin M latitude) / (cos M decl * cos M latitude).

Definition sunAngleTime (julianDate latitude angle time : number) (ccw : bool)
  : number :=
  let '(decl, eqt) := sunPosition (julianDate + time) in
  let t := (lit 1 / lit 15) *
           arccos M ((- sin M angle - sin M decl * sin M latitude)
                     / (cos M decl * cos M latitude)) in
  fixHour (lit 12 - eqt) + (if ccw then - t else t).

(** The local [t] of [sunAngleTime]: the hour angle of the crossing. *)
Definition hourAngle (julianDate latitude angle time : number) : number :=
  (lit 1 / lit 15) * arccos M (sunAngleArg julianDate latitude angle time).

Definition EARTH_RADIUS : number := lit 6371008.7714.

Definition riseSetAngle (elevation : number) : number :=
  lit 0.833 + arccos M (EARTH_RADIUS / (EARTH_RADIUS + elevation)).
End Astronomy.

(** ** src/prayer.ts: the data model *)

Variant CalculationKind : Type := angle | minute.

Record CalculationType {N : Number} : Type := {
  type : CalculationKind;
  value : number;
}.
Arguments CalculationType N : clear implicits.

Module MidnightMethod.
Variant t : Type :=
  | Standard  (** from sunset to sunrise *)
  | Jafari.   (** from sunset to fajr *)
End MidnightMethod.

Module AsrJuristic.
Variant t : Type := Standard | Hanafi.

(** The numeric value of the enum member ([Standard = 1], [Hanafi] follows). *)
Definition factor {N : Number} (a : t) : number :=
  match a with Standard => lit 1 | Hanafi => lit 2 end.
End AsrJuristic.

Module HightLatMethods.
Variant t : Type := NightMiddle | AngleBased | OneSeventh.
End HightLatMethods.

(** [CalculationMethod]: the optional members may be absent. *)
Module CalculationMethod.
Record t {N : Number} : Type := mk {
  imsak : option (CalculationType N);
  fajr : number;
  dhuhr : option number;
  asr : option AsrJuristic.t;
  maghrib : option (CalculationType N);
  isha : CalculationType N;
  midnight : option MidnightMethod.t;
}.
Arguments t N : clear implicits.
Arguments mk {N}.
End CalculationMethod.

(** [Required<CalculationMethod>]: every member present. *)
Module RequiredMethod.
Record t {N : Number} : Type := mk {
  imsak : CalculationType N;
  fajr : number;
  dhuhr : number;
  asr : AsrJuristic.t;
  maghrib : CalculationType N;
  isha : CalculationType N;
  midnight : MidnightMethod.t;
}.
Arguments t N : clear implicits.
Arguments mk {N}.

(** A complete method read at the type [CalculationMethod]. *)
Definition forget {N : Number} (m : t N) : CalculationMethod.t N :=
  CalculationMethod.mk (Some (imsak m)) (fajr m) (Some (dhuhr m)) (Some (asr m))
    (Some (maghrib m)) (isha m) (Some (midnight m)).
End RequiredMethod.

Module PrayerTimes.
Record t {N : Number} : Type := mk {
  imsak : number;
  fajr : number;
  sunrise : number;
  dhuhr : number;
  asr : number;
  sunset : number;
  maghrib : number;
  isha : number;
  midnight : number;
}.
Arguments t N : clear implicits.
Arguments mk {N}.
End PrayerTimes.

(** The string values of the [CalculationMethods] const enum. *)
Module CalculationMethods.
Definition MWL : string := "MWL".
Definition ISNA : string := "ISNA".
Definition Egypt : string := "Egypt".
Definition Makkah : string := "Makkah".
Definition Karachi : string := "Karachi".
Definition Tehran : string := "Tehran".
Definition Jafari : string := "Jafari".
Definition MF : string := "MF".
End CalculationMethods.

(** ** Property lookup on an object literal

  [obj[key]] reads an own property, else walks the prototype chain; the
  prototype of an object literal is [Object.prototype] (taken unmodified),
  whose property names are listed here. A key found nowhere reads
  [undefined]. *)
Definition Object_prototype : list string :=
  ["constructor"; "hasOwnProperty"; "isPrototypeOf"; "propertyIsEnumerable";
   "toLocaleString"; "toString"; "valueOf"; "__proto__";
   "__defineGetter__"; "__defineSetter__"; "__lookupGetter__"; "__lookupSetter__"].

Variant Property (A : Type) : Type :=
  | Own (a : A)
  | Inherited (key : string)
  | undefined.
Arguments Own {A} a.
Arguments Inherited {A} key.
Arguments undefined {A}.

Definition getProperty {A : Type} (own : gmap string A) (key : string) : Property A :=
  match own !! key with
  | Some a => Own a
  | None => if bool_decide (key ∈ Object_prototype) then Inherited key else undefined
  end.

(** ** src/prayer.ts: the functions *)

Section Methods.
Context {N : Number}.
Local Open Scope num_scope.

Definition createCalculationMethod (method : CalculationMethod.t N)
  : RequiredMethod.t N :=
  {| RequiredMethod.imsak :=
       default {| type := minute; value := lit 10 |} (CalculationMethod.imsak method);
     RequiredMethod.fajr := CalculationMethod.fajr method;
     RequiredMethod.dhuhr := default (lit 0) (CalculationMethod.dhuhr method);
     RequiredMethod.asr := default AsrJuristic.Standard (CalculationMethod.asr method);
     RequiredMethod.maghrib :=
       default {| type := minute; value := lit 0 |} (CalculationMethod.maghrib method);
     RequiredMethod.isha := CalculationMethod.isha method;
     RequiredMethod.midnight :=
       default MidnightMethod.Standard (CalculationMethod.midnight method) |}.

(** A preset that sets [fajr] and [isha] only. *)
Definition preset (fajr : number) (isha : CalculationType N) : CalculationMethod.t N :=
  CalculationMethod.mk None fajr None None None isha None.

(** The object literal indexed by [getCalculationMethod]. *)
Definition presets (isRamadan : bool) : gmap string (CalculationMethod.t N) :=
  <[CalculationMethods.MWL := preset (lit 18) {| type := angle; value := lit 17 |}]>
  (<[CalculationMethods.ISNA := preset (lit 15) {| type := angle; value := lit 15 |}]>
  (<[CalculationMethods.Egypt := preset (lit 19.5) {| type := angle; value := lit 17.5 |}]>
  (<[CalculationMethods.Makkah :=
       preset (lit 19.5)
         {| type := minute; value := if isRamadan then lit 120 else lit 90 |}]>
  (<[CalculationMethods.Karachi := preset (lit 18) {| type := angle; value := lit 18 |}]>
  (<[CalculationMethods.Tehran :=
       CalculationMethod.mk None (lit 17.7) None None
         (Some {| type := angle; value := lit 4.5 |})
         {| type := angle; value := lit 14 |} (Some MidnightMethod.Jafari)]>
  (<[CalculationMethods.Jafari :=
       CalculationMethod.mk None (lit 16) None None
         (Some {| type := angle; value := lit 4 |})
         {| type := angle; value := lit 14 |} (Some MidnightMethod.Jafari)]>
  (<[CalculationMethods.MF := preset (lit 12) {| type := angle; value := lit 12 |}]>
   ∅))))))).

(** [isRamadan] is [None] when the call leaves the argument out. *)
Definition getCalculationMethod (method : string) (isRamadan : option bool)
  : Property (CalculationMethod.t N) :=
  let isRamadan := default false isRamadan in
  getProperty (presets isRamadan) method.

Definition timeDiff (time1 time2 : number) : number := fixHour (time2 - time1).
End Methods.

Section AsrTime.
Context {N : Number} (M : MathLib N).
Local Open Scope num_scope.

Definition asrTime (julianDay latitude : number) (factor : AsrJuristic.t)
    (time : number) : number :=
  let decl := fst (sunPosition M (julianDay + time)) in
  let angle := - arccot M (AsrJuristic.factor factor + tan M (Math_abs (latitude - decl))) in
  sunAngleTime M julianDay latitude angle time false.
End AsrTime.

Module PrayerManager.
(** The instance state: the private [#method] and the public
    [hightLatMethod]. *)
Record t {N : Number} : Type := mk {
  method : RequiredMethod.t N;
  hightLatMethod : option HightLatMethods.t;
}.
Arguments t N : clear implicits.
Arguments mk {N}.

Section WithMath.
Context {N : Number} (M : MathLib N).
Local Open Scope num_scope.

Definition getCalculationMethod (this : t N) : RequiredMethod.t N := method this.

Definition setCalculationMethod (this : t N) (m : CalculationMethod.t N) : t N :=
  {| method := createCalculationMethod m; hightLatMethod := hightLatMethod this |}.

(** [new PrayerManager(method, hightLatMethod?)] *)
Definition new (m : CalculationMethod.t N) (hl : option HightLatMethods.t) : t N :=
  {| method := createCalculationMethod m; hightLatMethod := hl |}.

(** [this.hightLatMethod!] is [hl]: the method is only reached from the
    branch of [getTimes] that has tested it. *)
Definition nightPortion (hl : HightLatMethods.t) (angle night : number) : number :=
  match hl with
  | HightLatMethods.NightMiddle => lit 1 / lit 2
  | HightLatMethods.AngleBased => (lit 1 / lit 60) * angle
  | HightLatMethods.OneSeventh => lit 1 / lit 7
  end * night.

Definition adjustHighlatTime (hl : HightLatMethods.t)
    (time base angle night : number) (ccw : bool) : number :=
  let portion := nightPortion hl angle night in
  let diff := if ccw then timeDiff time base else timeDiff base time in
  if portion >? diff then time
  else base + (if ccw then - portion else portion).

Definition getTimes (this : t N) (date : Date) (coords : Coordinates N)
  : PrayerTimes.t N :=
  let latitude := latitude coords in
  let longitude := longitude coords in
  let altitude := default (lit 0) (altitude coords) in
  let julianDay := getJulianDay date - longitude / (lit 15 * lit 24) in
  let method := method this in
  let adjust := longitude / lit 15 in

  let imsak := sunAngleTime M julianDay latitude
                 (value (RequiredMethod.imsak method)) (lit 5 / lit 24) true - adjust in
  let fajr := sunAngleTime M julianDay latitude
                (RequiredMethod.fajr method) (lit 5 / lit 24) true - adjust in
  let sunrise := sunAngleTime M julianDay latitude
                   (riseSetAngle M altitude) (lit 6 / lit 24) true - adjust in
  let dhuhr := midDay M julianDay (lit 12 / lit 24) - adjust
               + RequiredMethod.dhuhr method / lit 60 in
  let asr := asrTime M julianDay latitude (RequiredMethod.asr method)
               (lit 13 / lit 24) - adjust in
  let sunset := sunAngleTime M julianDay latitude
                  (riseSetAngle M altitude) (lit 18 / lit 24) false - adjust in
  let maghrib := sunAngleTime M julianDay latitude
                   (value (RequiredMethod.maghrib method)) (lit 18 / lit 24) false
                 - adjust in
  let isha := sunAngleTime M julianDay latitude
                (value (RequiredMethod.isha method)) (lit 18 / lit 24) false
              - adjust in

  let '(imsak, fajr, maghrib, isha) :=
    match hightLatMethod this with
    | Some hl =>
        let nightTime := timeDiff sunset sunrise in
        (adjustHighlatTime hl imsak sunrise
           (value (RequiredMethod.imsak method)) nightTime true,
         adjustHighlatTime hl fajr sunrise
           (RequiredMethod.fajr method) nightTime true,
         adjustHighlatTime hl maghrib sunset
           (value (RequiredMethod.maghrib method)) nightTime false,
         adjustHighlatTime hl isha sunset
           (value (RequiredMethod.isha method)) nightTime false)
    | None => (imsak, fajr, maghrib, isha)
    end in

  let imsak :=
    match type (RequiredMethod.imsak method) with
    | minute => fajr - value (RequiredMethod.imsak method) / lit 60
    | angle => imsak
    end in
  let maghrib :=
    match type (RequiredMethod.maghrib method) with
    | minute => sunset - value (RequiredMethod.maghrib method) / lit 60
    | angle => maghrib
    end in
  let isha :=
    match type (RequiredMethod.isha method) with
    | minute => maghrib - value (RequiredMethod.isha method) / lit 60
    | angle => isha
    end in

  {| PrayerTimes.imsak := imsak;
     PrayerTimes.fajr := fajr;
     PrayerTimes.sunrise := sunrise;
     PrayerTimes.dhuhr := dhuhr;
     PrayerTimes.asr := asr;
     PrayerTimes.sunset := sunset;
     PrayerTimes.maghrib := maghrib;
     PrayerTimes.isha := isha;
     PrayerTimes.midnight :=
       sunset + (match RequiredMethod.midnight method with
                 | MidnightMethod.Standard => timeDiff sunset sunrise
                 | MidnightMethod.Jafari => timeDiff sunset fajr
                 end) / lit 2 |}.

(** The locals [julianDay] and [adjust] of [getTimes], and a marker's time
  as first computed there: the solver's result moved to the zone of the
  longitude. *)
Definition julianDay (date : Date) (coords : Coordinates N) : number :=
  getJulianDay date - longitude coords / (lit 15 * lit 24).

Definition adjust (coords : Coordinates N) : number := longitude coords / lit 15.

Definition rawTime (date : Date) (coords : Coordinates N)
  (angle time : number) (ccw : bool) : number :=
  sunAngleTime M (julianDay date coords) (latitude coords) angle time ccw
  - adjust coords.

(** The high-latitude step of [getTimes] on one marker. *)
Definition clamp (hl : option HightLatMethods.t)
  (time base angle night : number) (ccw : bool) : number :=
  match hl with
  | Some hl => adjustHighlatTime hl time base angle night ccw
  | None => time
  end.
End WithMath.
End PrayerManager.


(** ** A reference implementation of the approximated [Math] members

  Argument reduction followed by a Taylor polynomial, in double arithmetic;
  accurate to a few units in the last place on the ranges the program
  uses. The NaN results that ECMAScript fixes are returned explicitly. *)

Module RefMath.
Local Open Scope float_scope.

(** [Math.PI]: the double nearest to pi. *)
Definition PI : float := 0x1.921fb54442d18p+1.

(** [sum_{i<n} (-1)^i x^(2i+1)/(2i+1)!], from the term of index [k]. *)
Fixpoint sin_terms (n : nat) (k : float) (x2 term acc : float) : float :=
  match n with
  | O => acc
  | S n' =>
      let term' := - (term * x2) / ((2 * k + 2) * (2 * k + 3)) in
      sin_terms n' (k + 1) x2 term' (acc + term)
  end.

(** [|x| <= pi/2] *)
Definition sin_reduced (x : float) : float := sin_terms 14 0 (x * x) x 0.

Definition sin (x : float) : float :=
  if isFinite x then
    let k := ffloor (x / PI + 0.5) in
    let r := sin_reduced (x - k * PI) in
    if fmod k 2 =? 0 then r else - r
  else nan.

Definition cos (x : float) : float := sin (x + PI / 2).

Definition tan (x : float) : float := sin x / cos x.

(** [sum_{i<n} (-1)^i x^(2i+1)/(2i+1)], from the term of index [k]. *)
Fixpoint atan_terms (n : nat) (k : float) (x2 pow acc : float) : float :=
  match n with
  | O => acc
  | S n' => atan_terms n' (k + 1) x2 (- (pow * x2)) (acc + pow / (2 * k + 1))
  end.

(** [atan x = 2 atan (x / (1 + sqrt (1 + x^2)))] *)
Definition atan_half (x : float) : float := x / (1 + sqrt (1 + x * x)).

(** [0 <= x <= 1] *)
Definition atan_unit (x : float) : float :=
  let y := atan_half (atan_half x) in
  4 * atan_terms 16 0 (y * y) y 0.

Definition atan (x : float) : float :=
  if isNaN x then nan
  else
    let a := abs x in
    let r := if 1 <? a then PI / 2 - atan_unit (1 / a) else atan_unit a in
    if x <? 0 then - r else r.

Definition atan2 (y x : float) : float :=
  if isNaN x || isNaN y then nan
  else if 0 <? x then atan (y / x)
  else if x <? 0 then (if y <? 0 then atan (y / x) - PI else atan (y / x) + PI)
  else if 0 <? y then PI / 2
  else if y <? 0 then - (PI / 2)
  else 0.

Definition asin (x : float) : float :=
  if isNaN x || (1 <? x) || (x <? -1) then nan
  else atan (x / sqrt (1 - x * x)).

Definition acos (x : float) : float :=
  if isNaN x || (1 <? x) || (x <? -1) then nan
  else 2 * atan (sqrt ((1 - x) / (1 + x))).
End RefMath.

Definition refMath : MathLib ieee :=
  @Build_MathLib ieee RefMath.PI RefMath.sin RefMath.cos RefMath.tan
    RefMath.asin RefMath.acos RefMath.atan RefMath.atan2.

(** ** Scenarios

    Inputs on which the program is evaluated with [refMath]. *)

(** The preset [MWL] completed by the constructor, and the regression
    scenario of [src/__tests__/prayer.test.ts]. *)
Definition MWL_preset : CalculationMethod.t ieee :=
  preset (N:=ieee) (lit 18) (@Build_CalculationType ieee angle (lit 17)).

Definition date_2021_04_12 : Date :=
  {| getFullYear := 2021; getMonth := 3; getDate := 12 |}.

Definition date_2021_06_21 : Date :=
  {| getFullYear := 2021; getMonth := 5; getDate := 21 |}.

Definition date_2021_12_21 : Date :=
  {| getFullYear := 2021; getMonth := 11; getDate := 21 |}.

Definition aHouse : Coordinates ieee :=
  @Build_Coordinates ieee (lit 38.8976763) (lit (-77.036529)) (Some (lit 18)).

(** 60.17 N: in June the sun stays above the 18 degree twilight line. *)
Definition helsinki : Coordinates ieee :=
  @Build_Coordinates ieee (lit 60.17) (lit 24.94) None.

(** 78.22 N: in December the sun does not rise. *)
Definition longyearbyen : Coordinates ieee :=
  @Build_Coordinates ieee (lit 78.22) (lit 15.65) None.

(** The shore of the Dead Sea, 430 m below sea level. *)
Definition deadSea : Coordinates ieee :=
  @Build_Coordinates ieee (lit 31.5) (lit 35.5) (Some (lit (-430))).

(** [|a - b| < 1e-9] *)
Definition close (a b : float) : bool :=
  (PrimFloat.abs (a - b) <? 1e-9)%float.

(** A double is outside [-1, 1]. *)
Definition outsideUnit (x : float) : bool :=
  ((x <? -1) || (1 <? x))%float.


(** The preset with a dhuhr offset of 1000 minutes, as a custom method. *)
Definition MWL_late_dhuhr : CalculationMethod.t ieee :=
  CalculationMethod.mk None (lit 18) (Some (lit 1000)) None None
    (@Build_CalculationType ieee angle (lit 17)) None.

(** 89 N: in June the sun stays above the altitude of asr. *)
Definition nearNorthPole : Coordinates ieee :=
  @Build_Coordinates ieee (lit 89) (lit 0) None.

(** A position whose longitude is not a number. *)
Definition noLongitude : Coordinates ieee :=
  @Build_Coordinates ieee (lit 38.8976763) nan None.

Definition date_2021_05_31 : Date :=
  {| getFullYear := 2021; getMonth := 4; getDate := 31 |}.

Definition date_2021_06_01 : Date :=
  {| getFullYear := 2021; getMonth := 5; getDate := 1 |}.


(** The eight keys of the object literal of [getCalculationMethod]. *)
Definition presetNames : list string :=
  [CalculationMethods.MWL; CalculationMethods.ISNA; CalculationMethods.Egypt;
   CalculationMethods.Makkah; CalculationMethods.Karachi;
   CalculationMethods.Tehran; CalculationMethods.Jafari; CalculationMethods.MF].

(** An arithmetic operation with a NaN operand, through its specification
    [spec] on [spec_float]. *)
Ltac nan_arith spec :=
  intros; apply Prim2SF_inj; rewrite spec;
  repeat match goal with |- context [Prim2SF ?x] =>
    lazymatch x with nan => fail | _ => destruct (Prim2SF x) end end;
  reflexivity.

(** ** Dates and doubles

    The calendar order of two dates, the rational a double stands for, and
    the check that [getJulianDay] computes on doubles the exact value of its
    formula. *)

(** Calendar order on the components of two dates. *)
Definition before (a b : Date) : Prop :=
  (getFullYear a < getFullYear b \/
   (getFullYear a = getFullYear b /\
    (getMonth a < getMonth b \/
     (getMonth a = getMonth b /\ getDate a < getDate b))))%Z.

(** The rational a double stands for; [None] for NaN and the infinities. *)
Definition float2Q (a : float) : option Q :=
  match Prim2SF a with
  | S754_zero _ => Some 0%Q
  | S754_finite s m e =>
      let n := if s then Zneg m else Zpos m in
      Some match e with
           | Zneg p => n # 2 ^ p
           | _ => inject_Z (n * 2 ^ e)
           end
  | _ => None
  end.

(** The double [a] stands for the rational [q]. *)
Definition represents (a : float) (q : Q) : bool :=
  match float2Q a with
  | Some v => Qeq_bool v q
  | None => false
  end.

(** [[lo; lo + 1; ...]], [n] integers. *)
Definition range (lo : Z) (n : nat) : list Z :=
  map (fun i => (lo + Z.of_nat i)%Z) (seq 0 n).

(** The floor term of [getJulianDay]: what the year and the month
    contribute. *)
Definition julianDayOfMonth {N : Number} (year month : Z) : number :=
  let year := of_int year in
  let month := (of_int month + lit 1)%num in
  let '(year, month) :=
    if (month <? lit 3)%num then ((year - lit 1)%num, (month + lit 12)%num)
    else (year, month) in
  Math_floor (lit 365.2425 * year + lit 30.6001 * month)%num.

(** On the day numbers 1..31 of the months of the [n] years from [lo], the
    double computed by [getJulianDay] stands for the exact value. *)
Definition julianDayExactOn (lo : Z) (n : nat) : bool :=
  let days := map (fun d => (d, of_int (Number:=ieee) d)) (range 1 31) in
  let c := lit (Number:=ieee) 1721027.5 in
  forallb (fun y =>
    forallb (fun m =>
      let F := julianDayOfMonth (N:=ieee) y m in
      let K := julianDayOfMonth (N:=exact) y m in
      forallb (fun d : Z * float =>
        represents (F + snd d + c)%float (K + inject_Z (fst d) + 1721027.5)%Q)
        days)
      (range 0 12))
    (range lo n).

(** ** Solar ordering: scenarios and the grid check *)










(** ** Invariants of rounding

    Two predicates on the data of [SpecFloat], used to bound the rounded sum
    in [fix]. *)

(** [k] steps of [shr_1] from [m0]: the mantissa is [m0 / 2^k], and no
    round or sticky bit is set when the bits shifted out are all zero. *)
Definition shifted (m0 k : Z) (mrs : shr_record) : Prop :=
  (shr_m mrs = m0 / 2 ^ k)%Z /\
  ((m0 mod 2 ^ k)%Z = 0%Z -> shr_r mrs = false /\ shr_s mrs = false).

(** The order of two positive finite doubles with canonical mantissas
    [m * 2^e] and [mb * 2^eb], read off their exponents and mantissas. *)
Definition le_finite (m : positive) (e : Z) (mb : positive) (eb : Z) : Prop :=
  (e < eb)%Z \/ (e = eb /\ (Zpos m <= Zpos mb)%Z).

(** * Properties *)

(** ** Exact arithmetic: [fix] is the floored modulo *)

Section ExactFix.
Local Open Scope Q_scope.

Lemma Qltb_lt (a b : Q) : Qltb a b = true <-> a < b.
Proof.
  unfold Qltb. rewrite negb_true_iff. split.
  - intros H. apply Qnot_le_lt. intros Hle. apply Qle_bool_iff in Hle. congruence.
  - intros H. destruct (Qle_bool b a) eqn:E; [|reflexivity].
    apply Qle_bool_iff in E. exfalso. apply (Qlt_not_le _ _ H E).
Qed.

Lemma Qltb_ge (a b : Q) : Qltb a b = false <-> b <= a.
Proof.
  unfold Qltb. rewrite negb_false_iff. apply Qle_bool_iff.
Qed.

(** A rational is its truncation plus the remainder of its numerator. *)
Lemma Qtrunc_rem (q : Q) :
  q == inject_Z (Qtrunc q) + (Z.rem (Qnum q) (Zpos (Qden q)) # Qden q).
Proof.
  destruct q as [n d]. unfold Qtrunc, Qeq, Qplus, inject_Z. simpl.
  pose proof (Z.quot_rem' n (Zpos d)) as H. nia.
Qed.

Lemma Qfloor_mod (q : Q) :
  q == inject_Z (Qfloor q) + ((Qnum q mod Zpos (Qden q))%Z # Qden q).
Proof.
  destruct q as [n d]. unfold Qfloor, Qeq, Qplus, inject_Z. simpl.
  pose proof (Z.div_mod n (Zpos d)) as H. nia.
Qed.

(** Truncated and floored remainders by a positive divisor differ by the
    divisor exactly when the truncated one is negative. *)
Lemma Zrem_mod_pos (n : Z) (d : positive) :
  ((Z.rem n (Zpos d) < 0 -> n mod Zpos d = Z.rem n (Zpos d) + Zpos d) /\
   (0 <= Z.rem n (Zpos d) -> n mod Zpos d = Z.rem n (Zpos d)))%Z.
Proof.
  pose proof (Z.quot_rem' n (Zpos d)) as Hq.
  pose proof (Z.div_mod n (Zpos d) ltac:(lia)) as Hd.
  pose proof (Z.mod_pos_bound n (Zpos d) ltac:(lia)) as Hm.
  assert (- Zpos d < Z.rem n (Zpos d) < Zpos d)%Z as Hr.
  { pose proof (Z.rem_bound_abs n (Zpos d) ltac:(lia)). lia. }
  set (k := (n / Zpos d - n ÷ Zpos d)%Z).
  assert (Hk : (Z.rem n (Zpos d) - n mod Zpos d = Zpos d * k)%Z) by (unfold k; lia).
  split; intros Hs.
  - assert (k = -1)%Z by nia. lia.
  - assert (k = 0)%Z by nia. lia.
Qed.

Lemma Qrem_residue (x m q T R : Q) :
  x == m * q -> q == T + R -> x - m * T == m * R.
Proof. intros H1 H2. rewrite H1, H2. ring. Qed.

Lemma fix_exact_floor (x m : Q) :
  0 < m -> fix_ (N:=exact) x m == x - m * inject_Z (Qfloor (x / m)).
Proof.
  intros Hm. unfold fix_; cbn [nrem nltb nadd lit exact]. unfold Qrem.
  assert (Hx : x == m * (x / m)) by (rewrite Qmult_div_r; [reflexivity | lra]).
  set (q := x / m) in *.
  pose proof (Qrem_residue _ _ _ _ _ Hx (Qtrunc_rem q)) as Ht.
  pose proof (Qrem_residue _ _ _ _ _ Hx (Qfloor_mod q)) as Hf.
  destruct (Zrem_mod_pos (Qnum q) (Qden q)) as [Hneg Hpos].
  set (r := Z.rem (Qnum q) (Zpos (Qden q))) in *.
  set (r' := (Qnum q mod Zpos (Qden q))%Z) in *.
  rewrite Hf.
  destruct (Z.lt_ge_cases r 0) as [Hr|Hr].
  - assert (Hrq : (r # Qden q) < 0) by (unfold Qlt; simpl; lia).
    assert (Hlt : x - m * inject_Z (Qtrunc q) < 0) by (rewrite Ht; nra).
    apply Qltb_lt in Hlt. rewrite Hlt, Ht.
    assert (Hrr : (r' # Qden q) == (r # Qden q) + 1).
    { rewrite (Hneg Hr). unfold Qeq, Qplus; simpl. lia. }
    rewrite Hrr. ring.
  - assert (Hrq : 0 <= (r # Qden q)) by (unfold Qle; simpl; lia).
    assert (Hge : 0 <= x - m * inject_Z (Qtrunc q)) by (rewrite Ht; nra).
    apply Qltb_ge in Hge. rewrite Hge, Ht, (Hpos Hr). reflexivity.
Qed.

Lemma fix_exact_range (x m : Q) :
  0 < m -> 0 <= fix_ (N:=exact) x m /\ fix_ (N:=exact) x m < m.
Proof.
  intros Hm. rewrite fix_exact_floor by assumption.
  assert (Hx : x == m * (x / m)) by (rewrite Qmult_div_r; [reflexivity | lra]).
  pose proof (Qfloor_le (x / m)) as H1. pose proof (Qlt_floor (x / m)) as H2.
  rewrite inject_Z_plus in H2. change (inject_Z 1) with 1 in H2.
  set (f := inject_Z (Qfloor (x / m))) in *. set (q := x / m) in *.
  assert (Hd : x - m * f == m * (q - f)) by (rewrite Hx at 1; ring).
  split; rewrite Hd; nra.
Qed.

(** The floor of a rational shifted by an integer. *)
Lemma Qfloor_shift (q : Q) (k : Z) : Qfloor (q + inject_Z k) = (Qfloor q + k)%Z.
Proof.
  destruct q as [n d]. unfold Qfloor, Qplus, inject_Z. simpl.
  rewrite Z.mul_1_r, Pos.mul_1_r. apply Z.div_add. lia.
Qed.
End ExactFix.

(** ** IEEE-754: NaN is absorbing, rounding never produces it *)

Section IEEE.
Local Open Scope float_scope.

Lemma isNaN_true (x : float) : isNaN x = true -> x = nan.
Proof.
  unfold isNaN. destruct (Prim2SF x) eqn:E; try discriminate.
  intros _. apply Prim2SF_inj. rewrite E. reflexivity.
Qed.

Lemma isFinite_not_NaN (x : float) : isFinite x = true -> isNaN x = false.
Proof. unfold isFinite, isNaN. destruct (Prim2SF x); congruence. Qed.

Lemma add_nan_l x : nan + x = nan. Proof. nan_arith add_spec. Qed.
Lemma add_nan_r x : x + nan = nan. Proof. nan_arith add_spec. Qed.
Lemma sub_nan_l x : nan - x = nan. Proof. nan_arith sub_spec. Qed.
Lemma sub_nan_r x : x - nan = nan. Proof. nan_arith sub_spec. Qed.
Lemma mul_nan_l x : nan * x = nan. Proof. nan_arith mul_spec. Qed.
Lemma mul_nan_r x : x * nan = nan. Proof. nan_arith mul_spec. Qed.
Lemma div_nan_l x : nan / x = nan. Proof. nan_arith div_spec. Qed.
Lemma div_nan_r x : x / nan = nan. Proof. nan_arith div_spec. Qed.
Lemma opp_nan : - nan = nan. Proof. reflexivity. Qed.

Lemma ltb_nan_l x : (nan <? x) = false.
Proof. rewrite ltb_spec. destruct (Prim2SF x); reflexivity. Qed.

Lemma ltb_nan_r x : (x <? nan) = false.
Proof. rewrite ltb_spec. destruct (Prim2SF x); reflexivity. Qed.

Lemma fmod_nan_l x : fmod nan x = nan.
Proof. unfold fmod. change (Prim2SF nan) with S754_nan. reflexivity. Qed.

Lemma fix_nan (b : float) : fix_ (N:=ieee) nan b = nan.
Proof.
  unfold fix_; cbn [nrem nltb nadd lit ieee].
  rewrite fmod_nan_l, ltb_nan_l. reflexivity.
Qed.

Lemma timeDiff_nan_l (x : float) : timeDiff (N:=ieee) nan x = nan.
Proof. unfold timeDiff, fixHour; cbn [nsub ieee]. rewrite sub_nan_r. apply fix_nan. Qed.

Lemma timeDiff_nan_r (x : float) : timeDiff (N:=ieee) x nan = nan.
Proof. unfold timeDiff, fixHour; cbn [nsub ieee]. rewrite sub_nan_l. apply fix_nan. Qed.
End IEEE.

Section Rounding.
Local Open Scope Z_scope.

Lemma shr_1_nonneg (mrs : shr_record) : 0 <= shr_m mrs -> 0 <= shr_m (shr_1 mrs).
Proof.
  destruct mrs as [m r s]. destruct m as [|p|p]; simpl; intros H; try lia;
    destruct p; simpl; lia.
Qed.

Lemma iter_shr_1_nonneg (p : positive) (mrs : shr_record) :
  0 <= shr_m mrs -> 0 <= shr_m (iter_pos shr_1 p mrs).
Proof.
  revert mrs. induction p as [p IH|p IH|]; intros mrs H; simpl.
  - apply IH, IH, shr_1_nonneg, H.
  - apply IH, IH, H.
  - apply shr_1_nonneg, H.
Qed.

Lemma shr_fexp_nonneg (m e : Z) (l : location) :
  0 <= m -> 0 <= shr_m (fst (shr_fexp prec emax m e l)).
Proof.
  intros H. unfold shr_fexp, shr.
  assert (H0 : 0 <= shr_m (shr_record_of_loc m l)) by (destruct l as [|[]]; exact H).
  destruct (fexp prec emax (Zdigits2 m + e) - e); simpl; auto using iter_shr_1_nonneg.
Qed.

Lemma round_nearest_even_nonneg (m : Z) (l : location) :
  0 <= m -> 0 <= round_nearest_even m l.
Proof.
  intros H. destruct l as [|[]]; simpl; try lia. destruct (Z.even m); lia.
Qed.

Lemma binary_round_aux_not_nan (sx : bool) (mx ex : Z) (lx : location) :
  0 <= mx -> binary_round_aux prec emax sx mx ex lx <> S754_nan.
Proof.
  intros H. unfold binary_round_aux.
  pose proof (shr_fexp_nonneg mx ex lx H) as H1.
  destruct (shr_fexp prec emax mx ex lx) as [mrs' e']. simpl in H1.
  pose proof (shr_fexp_nonneg _ e' loc_Exact
                (round_nearest_even_nonneg _ (loc_of_shr_record mrs') H1)) as H2.
  destruct (shr_fexp prec emax _ e' loc_Exact) as [mrs'' e'']. simpl in H2.
  destruct (shr_m mrs''); try lia; try discriminate.
  destruct (e'' <=? emax - prec); discriminate.
Qed.

Lemma binary_normalize_not_nan (m e : Z) (szero : bool) :
  binary_normalize prec emax m e szero <> S754_nan.
Proof.
  unfold binary_normalize, binary_round. destruct m; try discriminate;
    destruct (shl_align _ _ _); apply binary_round_aux_not_nan; lia.
Qed.
End Rounding.

Section IEEENumbers.
Local Open Scope float_scope.

Lemma add_not_NaN (a b : float) :
  isFinite a = true -> isNaN b = false -> isNaN (a + b) = false.
Proof.
  unfold isFinite, isNaN. rewrite add_spec.
  destruct (Prim2SF a) as [sa|sa| |sa ma ea], (Prim2SF b) as [sb|sb| |sb mb eb];
    try discriminate; intros _ _; try reflexivity.
  - destruct sa, sb; reflexivity.
  - unfold SF64add, SFadd.
    destruct (binary_normalize prec emax _ _ false) eqn:E; try reflexivity.
    exfalso. exact (binary_normalize_not_nan _ _ _ E).
Qed.

Lemma sub_not_NaN (a b : float) :
  isNaN a = false -> isFinite b = true -> isNaN (a - b) = false.
Proof.
  unfold isFinite, isNaN. rewrite sub_spec.
  destruct (Prim2SF a) as [sa|sa| |sa ma ea], (Prim2SF b) as [sb|sb| |sb mb eb];
    try discriminate; intros _ _; try reflexivity.
  - destruct sa, sb; reflexivity.
  - unfold SF64sub, SFsub.
    destruct (binary_normalize prec emax _ _ false) eqn:E; try reflexivity.
    exfalso. exact (binary_normalize_not_nan _ _ _ E).
Qed.

Lemma opp_not_NaN (a : float) : isNaN a = false -> isNaN (- a) = false.
Proof.
  unfold isNaN. rewrite opp_spec. destruct (Prim2SF a); try discriminate; reflexivity.
Qed.
End IEEENumbers.

(** ** Rounding to nearest: digits, shifts and order *)

Section Digits.
Local Open Scope Z_scope.

(** [digits2_pos p] is the number of binary digits of [p]. *)
Lemma digits2_pos_bounds (p : positive) :
  2 ^ (Zpos (digits2_pos p) - 1) <= Zpos p < 2 ^ Zpos (digits2_pos p).
Proof.
  induction p as [p IH|p IH|]; cbn [digits2_pos].
  - rewrite Pos2Z.inj_succ. replace (Z.succ (Zpos (digits2_pos p)) - 1) with (Zpos (digits2_pos p)) by lia.
    rewrite Z.pow_succ_r by lia.
    replace (2 ^ Zpos (digits2_pos p)) with (2 * 2 ^ (Zpos (digits2_pos p) - 1)) in *
      by (rewrite <- Z.pow_succ_r by lia; f_equal; lia).
    lia.
  - rewrite Pos2Z.inj_succ. replace (Z.succ (Zpos (digits2_pos p)) - 1) with (Zpos (digits2_pos p)) by lia.
    rewrite Z.pow_succ_r by lia.
    replace (2 ^ Zpos (digits2_pos p)) with (2 * 2 ^ (Zpos (digits2_pos p) - 1)) in *
      by (rewrite <- Z.pow_succ_r by lia; f_equal; lia).
    lia.
  - simpl. lia.
Qed.

(** The number of digits is determined by the bounds. *)
Lemma digits2_pos_unique (p : positive) (d : Z) :
  2 ^ (d - 1) <= Zpos p < 2 ^ d -> Zpos (digits2_pos p) = d.
Proof.
  intros [Hl Hu]. pose proof (digits2_pos_bounds p) as [Hl' Hu'].
  assert (0 < d) by (destruct (Z.lt_ge_cases 0 d) as [|Hd]; [assumption|];
                      exfalso; assert (2 ^ d <= 2 ^ 0) by (apply Z.pow_le_mono_r; lia);
                      simpl in *; lia).
  destruct (Z.lt_trichotomy (Zpos (digits2_pos p)) d) as [Hlt|[Heq|Hgt]]; [|assumption|].
  - exfalso. assert (2 ^ Zpos (digits2_pos p) <= 2 ^ (d - 1)) by (apply Z.pow_le_mono_r; lia). lia.
  - exfalso. assert (2 ^ d <= 2 ^ (Zpos (digits2_pos p) - 1)) by (apply Z.pow_le_mono_r; lia). lia.
Qed.

Lemma iter_xO (p : positive) (n : positive) :
  Zpos (Pos.iter xO p n) = Zpos p * 2 ^ Zpos n.
Proof.
  revert p. induction n as [n IH|n IH|]; intros p; cbn [Pos.iter].
  - rewrite Pos2Z.inj_xO, !IH.
    replace (Zpos n~1) with (Zpos n + Zpos n + 1) by lia.
    rewrite !Z.pow_add_r by lia. ring.
  - rewrite !IH.
    replace (Zpos n~0) with (Zpos n + Zpos n) by lia.
    rewrite !Z.pow_add_r by lia. ring.
  - simpl. lia.
Qed.

Lemma digits2_pos_shift (p n : positive) :
  Zpos (digits2_pos (Pos.iter xO p n)) = Zpos (digits2_pos p) + Zpos n.
Proof.
  apply digits2_pos_unique. rewrite iter_xO.
  pose proof (digits2_pos_bounds p) as [Hl Hu].
  replace (Zpos (digits2_pos p) + Zpos n - 1) with ((Zpos (digits2_pos p) - 1) + Zpos n) by lia.
  rewrite !Z.pow_add_r by lia.
  assert (0 < 2 ^ Zpos n) by (apply Z.pow_pos_nonneg; lia).
  nia.
Qed.
End Digits.

Section Shr.
Local Open Scope Z_scope.

Lemma shr_1_spec (mrs : shr_record) :
  0 <= shr_m mrs ->
  shr_m (shr_1 mrs) = Z.div2 (shr_m mrs) /\
  shr_r (shr_1 mrs) = Z.odd (shr_m mrs) /\
  shr_s (shr_1 mrs) = orb (shr_r mrs) (shr_s mrs).
Proof.
  destruct mrs as [m r s]. destruct m as [|[p|p|]|p]; cbn; intros H;
    try lia; repeat split.
Qed.


Lemma mod_pow2_succ (m0 k : Z) :
  0 <= k -> m0 mod 2 ^ (k + 1) = 0 ->
  m0 mod 2 ^ k = 0 /\ Z.odd (m0 / 2 ^ k) = false.
Proof.
  intros Hk H.
  assert (Hp : 0 < 2 ^ k) by (apply Z.pow_pos_nonneg; lia).
  rewrite Z.pow_add_r, Z.pow_1_r in H by lia.
  rewrite Z.rem_mul_r in H by lia.
  pose proof (Z.mod_pos_bound m0 (2 ^ k) Hp) as B1.
  pose proof (Z.mod_pos_bound (m0 / 2 ^ k) 2 ltac:(lia)) as B2.
  assert (H1 : m0 mod 2 ^ k = 0) by nia.
  split; [exact H1|].
  rewrite H1 in H.
  assert (H2 : (m0 / 2 ^ k) mod 2 = 0) by nia.
  rewrite <- Z.negb_even, Zeven_mod, H2. reflexivity.
Qed.

Lemma shifted_step (m0 k : Z) (mrs : shr_record) :
  0 <= m0 -> 0 <= k -> shifted m0 k mrs -> shifted m0 (k + 1) (shr_1 mrs).
Proof.
  intros Hm Hk [Hq Hx].
  assert (Hp : 0 < 2 ^ k) by (apply Z.pow_pos_nonneg; lia).
  assert (Hq0 : 0 <= shr_m mrs) by (rewrite Hq; apply Z.div_pos; lia).
  destruct (shr_1_spec mrs Hq0) as (H1 & H2 & H3). split.
  - rewrite H1, Z.div2_div, Hq, Z.div_div by lia.
    rewrite Z.pow_add_r, Z.pow_1_r by lia. reflexivity.
  - intros Hz. destruct (mod_pow2_succ m0 k Hk Hz) as [Hd Ho].
    destruct (Hx Hd) as [Hr Hs]. rewrite H2, H3, Hq, Ho, Hr, Hs. split; reflexivity.
Qed.

Lemma shifted_iter (m0 : Z) (p : positive) (k : Z) (mrs : shr_record) :
  0 <= m0 -> 0 <= k -> shifted m0 k mrs ->
  shifted m0 (k + Zpos p) (iter_pos shr_1 p mrs).
Proof.
  intros Hm. revert k mrs. induction p as [p IH|p IH|]; intros k mrs Hk H; cbn [iter_pos].
  - replace (k + Zpos p~1) with (k + 1 + Zpos p + Zpos p) by lia.
    apply IH; [lia|]. apply IH; [lia|]. apply shifted_step; assumption.
  - replace (k + Zpos p~0) with (k + Zpos p + Zpos p) by lia.
    apply IH; [lia|]. apply IH; assumption.
  - apply shifted_step; assumption.
Qed.

Lemma shifted_0 (m0 : Z) : shifted m0 0 (shr_record_of_loc m0 loc_Exact).
Proof. split; cbn; [rewrite Z.div_1_r; reflexivity | auto]. Qed.

(** [shr] by [n >= 0] bits from an exact location. *)
Lemma shr_exact_start (m0 e n : Z) :
  0 <= m0 -> 0 <= n ->
  shifted m0 n (fst (shr (shr_record_of_loc m0 loc_Exact) e n)) /\
  snd (shr (shr_record_of_loc m0 loc_Exact) e n) = e + n.
Proof.
  intros Hm Hn. unfold shr. destruct n as [|p|p]; [| |lia]; cbn [fst snd].
  - split; [apply shifted_0 | lia].
  - split; [|reflexivity].
    apply (shifted_iter m0 p 0 _ Hm ltac:(lia) (shifted_0 m0)).
Qed.

Lemma round_nearest_even_bounds (mrs : shr_record) :
  shr_m mrs <= round_nearest_even (shr_m mrs) (loc_of_shr_record mrs) <= shr_m mrs + 1 /\
  (shr_r mrs = false /\ shr_s mrs = false ->
   round_nearest_even (shr_m mrs) (loc_of_shr_record mrs) = shr_m mrs).
Proof.
  destruct mrs as [m r s]. destruct r, s; cbn [shr_m shr_r shr_s loc_of_shr_record round_nearest_even].
  - split; [lia|]. intros [? ?]; discriminate.
  - split; [destruct (Z.even m); lia|]. intros [? ?]; discriminate.
  - split; [lia|]. intros [? ?]; discriminate.
  - split; [lia|]. reflexivity.
Qed.
End Shr.

Section RoundLe.
Local Open Scope Z_scope.

Lemma fexp_eq (e : Z) : fexp prec emax e = Z.max (e - 53) (-1074).
Proof. reflexivity. Qed.

(** What validity says of a finite double. *)
Lemma bounded_inv (m : positive) (e : Z) :
  bounded prec emax m e = true ->
  Z.max (Zpos (digits2_pos m) + e - 53) (-1074) = e /\ e <= 971.
Proof.
  unfold bounded, canonical_mantissa. intros H.
  apply andb_true_iff in H as [H1 H2].
  apply Z.eqb_eq in H1. apply Z.leb_le in H2.
  rewrite fexp_eq in H1. unfold emax, prec in H2. lia.
Qed.

(** A larger value has at least as many digits above the common exponent. *)
Lemma digits_mono (m1 m2 : positive) (e1 e2 : Z) :
  -1074 <= e1 -> -1074 <= e2 ->
  Zpos m1 * 2 ^ (e1 + 1074) <= Zpos m2 * 2 ^ (e2 + 1074) ->
  Zpos (digits2_pos m1) + e1 <= Zpos (digits2_pos m2) + e2.
Proof.
  intros H1 H2 Hle.
  pose proof (digits2_pos_bounds m1) as [L1 _].
  pose proof (digits2_pos_bounds m2) as [_ U2].
  assert (P1 : 0 < 2 ^ (e1 + 1074)) by (apply Z.pow_pos_nonneg; lia).
  assert (P2 : 0 < 2 ^ (e2 + 1074)) by (apply Z.pow_pos_nonneg; lia).
  assert (H : 2 ^ (Zpos (digits2_pos m1) - 1 + (e1 + 1074))
              < 2 ^ (Zpos (digits2_pos m2) + (e2 + 1074))).
  { rewrite (Z.pow_add_r 2 (Zpos (digits2_pos m1) - 1)) by lia.
    rewrite (Z.pow_add_r 2 (Zpos (digits2_pos m2))) by lia.
    apply Z.le_lt_trans with (Zpos m1 * 2 ^ (e1 + 1074)).
    - apply Z.mul_le_mono_nonneg_r; lia.
    - apply Z.le_lt_trans with (Zpos m2 * 2 ^ (e2 + 1074)); [assumption|].
      apply Zmult_lt_compat_r; lia. }
  apply Z.pow_lt_mono_r_iff in H; lia.
Qed.


Lemma binary_round_aux_le (sx : bool) (mz mb : positive) (ez eb : Z) :
  -1074 <= ez ->
  ez <= fexp prec emax (Zpos (digits2_pos mz) + ez) ->
  bounded prec emax mb eb = true ->
  Zpos mz * 2 ^ (ez + 1074) <= Zpos mb * 2 ^ (eb + 1074) ->
  exists (m : positive) (e : Z),
    binary_round_aux prec emax sx (Zpos mz) ez loc_Exact = S754_finite sx m e /\
    le_finite m e mb eb.
Proof.
  intros Hez Hn Hb Hle.
  destruct (bounded_inv mb eb Hb) as [Hcb Heb].
  pose proof (digits_mono mz mb ez eb Hez ltac:(lia) Hle) as Hdig.
  pose proof (digits2_pos_bounds mz) as [Lz Uz].
  pose proof (digits2_pos_bounds mb) as [Lb Ub].
  rewrite fexp_eq in Hn.
  unfold binary_round_aux.
  unfold shr_fexp at 1. cbn [Zdigits2].
  set (n := Z.sub (fexp prec emax (Z.add (Zpos (digits2_pos mz)) ez)) ez).
  assert (HE : ez + n = Z.max (Zpos (digits2_pos mz) + ez - 53) (-1074))
    by (unfold n; rewrite fexp_eq; lia).
  assert (Hn0 : 0 <= n) by lia.
  destruct (shr_exact_start (Zpos mz) ez n ltac:(lia) Hn0) as [[Hm' Hx] He'].
  destruct (shr (shr_record_of_loc (Zpos mz) loc_Exact) ez n) as [mrs' e'].
  cbn [fst snd] in Hm', Hx, He'. subst e'.
  destruct (round_nearest_even_bounds mrs') as [Hr1 Hr2].
  set (m1 := round_nearest_even (shr_m mrs') (loc_of_shr_record mrs')) in *.
  set (E := ez + n) in *.
  assert (HEeb : E <= eb) by lia.
  assert (Pn : 0 < 2 ^ n) by (apply Z.pow_pos_nonneg; lia).
  assert (Pz : 0 < 2 ^ (ez + 1074)) by (apply Z.pow_pos_nonneg; lia).
  assert (PK : 0 < 2 ^ (eb - E)) by (apply Z.pow_pos_nonneg; lia).
  set (K := Zpos mb * 2 ^ (eb - E)).
  assert (HK : Zpos mz <= K * 2 ^ n).
  { apply Z.mul_le_mono_pos_r with (p := 2 ^ (ez + 1074)); [assumption|].
    replace (K * 2 ^ n * 2 ^ (ez + 1074)) with (Zpos mb * 2 ^ (eb + 1074)); [assumption|].
    unfold K. replace (eb + 1074) with ((eb - E) + n + (ez + 1074)) by (unfold E; lia).
    rewrite !Z.pow_add_r by lia. ring. }
  assert (Hm'K : shr_m mrs' <= K).
  { rewrite Hm'. apply Z.div_le_upper_bound; [assumption|]. lia. }
  assert (Hm1K : m1 <= K).
  { destruct (Z.eq_dec (shr_m mrs') K) as [Heq|Hne]; [|lia].
    assert (Hz : Zpos mz = K * 2 ^ n).
    { pose proof (Z.mul_div_le (Zpos mz) (2 ^ n) Pn) as Hd. rewrite <- Hm', Heq in Hd. lia. }
    assert (Hmod : Zpos mz mod 2 ^ n = 0) by (rewrite Hz; apply Z.mod_mul; lia).
    rewrite (Hr2 (Hx Hmod)). lia. }
  assert (Hb1 : 1 <= shr_m mrs' < 2 ^ 53 /\ (n = 0 -> m1 = shr_m mrs')).
  { destruct (Z.eq_dec n 0) as [Hz|Hnz].
    - assert (Hd : Zpos (digits2_pos mz) <= 53) by lia.
      assert (Hmod : Zpos mz mod 2 ^ n = 0) by (rewrite Hz; apply Z.mod_1_r).
      rewrite Hm', Hz, Z.pow_0_r, Z.div_1_r. split; [|intros _; rewrite (Hr2 (Hx Hmod)), Hm', Hz, Z.pow_0_r, Z.div_1_r; reflexivity].
      split; [lia|]. apply Z.lt_le_trans with (2 ^ Zpos (digits2_pos mz)); [assumption|].
      apply Z.pow_le_mono_r; lia.
    - assert (Hd : n = Zpos (digits2_pos mz) - 53) by lia.
      split; [|intros; lia]. rewrite Hm'. split.
      + apply Z.le_trans with (2 ^ 52); [lia|].
        apply Z.div_le_lower_bound; [assumption|].
        replace (2 ^ n * 2 ^ 52) with (2 ^ (Zpos (digits2_pos mz) - 1)); [assumption|].
        rewrite <- Z.pow_add_r by lia. f_equal. lia.
      + apply Z.div_lt_upper_bound; [assumption|].
        replace (2 ^ n * 2 ^ 53) with (2 ^ Zpos (digits2_pos mz)); [assumption|].
        rewrite <- Z.pow_add_r by lia. f_equal. lia. }
  destruct Hb1 as [[Hlo Hhi] Hex0].
  unfold shr_fexp.
  destruct m1 as [|p1|p1] eqn:Em1; [lia| |lia]. cbn [Zdigits2].
  pose proof (digits2_pos_bounds p1) as [L1 U1].
  destruct (Z.eq_dec (Zpos p1) (2 ^ 53)) as [Hc|Hnc].
  - (* carry: the mantissa reached 2^53 *)
    assert (Hp1 : p1 = 9007199254740992%positive) by (change (2 ^ 53) with 9007199254740992 in Hc; congruence).
    subst p1. change (Zpos (digits2_pos 9007199254740992)) with 54.
    assert (HKlo : 2 ^ 53 <= K) by lia.
    assert (Hmb : Zpos mb < 2 ^ 53).
    { apply Z.lt_le_trans with (2 ^ Zpos (digits2_pos mb)); [assumption|].
      apply Z.pow_le_mono_r; lia. }
    assert (HE1 : E + 1 <= eb).
    { destruct (Z.eq_dec E eb) as [He|He]; [|lia]. exfalso.
      unfold K in HKlo. rewrite He, Z.sub_diag, Z.pow_0_r in HKlo. lia. }
    replace (Z.sub (fexp prec emax (Z.add 54 E)) E) with 1 by (rewrite fexp_eq; lia).
    cbn.
    replace (E + 1 <=? emax - prec) with true
      by (symmetry; apply Z.leb_le; unfold emax, prec; lia).
    exists 4503599627370496%positive, (E + 1). split; [reflexivity|].
    unfold le_finite. destruct (Z.eq_dec (E + 1) eb) as [He|He]; [right|left; lia].
    split; [assumption|].
    unfold K in HKlo. replace (eb - E) with 1 in HKlo by lia.
    change (2 ^ 53) with 9007199254740992 in HKlo. lia.
  - (* no carry *)
    assert (Hd1 : Zpos (digits2_pos p1) <= 53).
    { assert (Hlt : Zpos p1 < 2 ^ 53) by lia.
      destruct (Z.le_gt_cases (Zpos (digits2_pos p1)) 53) as [|Hgt]; [assumption|].
      exfalso. assert (2 ^ 53 <= 2 ^ (Zpos (digits2_pos p1) - 1))
        by (apply Z.pow_le_mono_r; lia). lia. }
    assert (Hn2 : Z.sub (fexp prec emax (Z.add (Zpos (digits2_pos p1)) E)) E <= 0)
      by (rewrite fexp_eq; lia).
    unfold shr.
    destruct (Z.sub (fexp prec emax (Z.add (Zpos (digits2_pos p1)) E)) E) as [|q|q];
      [| lia |]; cbn [shr_record_of_loc shr_m];
      (replace (E <=? emax - prec) with true
         by (symmetry; apply Z.leb_le; unfold emax, prec; lia));
      exists p1, E; (split; [reflexivity|]);
      unfold le_finite; (destruct (Z.eq_dec E eb) as [He|He]; [right|left; lia]);
      (split; [assumption|]);
      unfold K in Hm1K; rewrite He, Z.sub_diag, Z.pow_0_r in Hm1K; lia.
Qed.

(** [shl_align] to a lower exponent multiplies the mantissa by the power
    of two in between; to an exponent that is not lower it does nothing. *)
Lemma shl_align_spec (m : positive) (e e' : Z) :
  let '(m', e'') := shl_align m e e' in
  (e' < e -> Zpos m' = Zpos m * 2 ^ (e - e') /\ e'' = e' /\
             Zpos (digits2_pos m') = Zpos (digits2_pos m) + (e - e')) /\
  (e <= e' -> m' = m /\ e'' = e).
Proof.
  unfold shl_align. destruct (Z.sub e' e) as [|d|d] eqn:Hd.
  - split; [intros; lia | auto].
  - split; [intros; lia | auto].
  - split; [|intros; lia]. intros _.
    replace (e - e') with (Zpos d) by lia.
    rewrite iter_xO, digits2_pos_shift. auto.
Qed.

Lemma binary_round_le (sx : bool) (mx mb : positive) (ex eb : Z) :
  -1074 <= ex ->
  bounded prec emax mb eb = true ->
  Zpos mx * 2 ^ (ex + 1074) <= Zpos mb * 2 ^ (eb + 1074) ->
  exists (m : positive) (e : Z),
    binary_round prec emax sx mx ex = S754_finite sx m e /\
    le_finite m e mb eb.
Proof.
  intros Hex Hb Hle. unfold binary_round.
  pose proof (shl_align_spec mx ex (fexp prec emax (Zpos (digits2_pos mx) + ex))) as Hs.
  destruct (shl_align mx ex _) as [mz ez].
  destruct Hs as [Hlt Hge].
  pose proof (fexp_eq (Zpos (digits2_pos mx) + ex)) as HE.
  destruct (Z.lt_ge_cases (fexp prec emax (Zpos (digits2_pos mx) + ex)) ex) as [Hc|Hc].
  - destruct (Hlt Hc) as (Hm & He & Hd). subst ez.
    apply binary_round_aux_le.
    + lia.
    + rewrite Hd. apply Z.eq_le_incl. f_equal. lia.
    + assumption.
    + rewrite Hm.
      replace (Zpos mx * 2 ^ (ex - fexp prec emax (Zpos (digits2_pos mx) + ex))
               * 2 ^ (fexp prec emax (Zpos (digits2_pos mx) + ex) + 1074))
        with (Zpos mx * 2 ^ (ex + 1074)); [assumption|].
      rewrite <- Z.mul_assoc, <- Z.pow_add_r by lia. do 2 f_equal. lia.
  - destruct (Hge Hc) as [-> ->].
    apply binary_round_aux_le; assumption.
Qed.

(** A canonical mantissa goes through rounding unchanged. *)
Lemma binary_round_aux_canonical (sx : bool) (mz : positive) (ez : Z) :
  fexp prec emax (Zpos (digits2_pos mz) + ez) = ez -> ez <= 971 ->
  binary_round_aux prec emax sx (Zpos mz) ez loc_Exact = S754_finite sx mz ez.
Proof.
  intros Hc He. unfold binary_round_aux, shr_fexp. cbn [Zdigits2].
  replace (Z.sub (fexp prec emax (Z.add (Zpos (digits2_pos mz)) ez)) ez) with 0 by lia.
  cbn [shr shr_record_of_loc shr_m loc_of_shr_record round_nearest_even Zdigits2].
  replace (Z.sub (fexp prec emax (Z.add (Zpos (digits2_pos mz)) ez)) ez) with 0 by lia.
  cbn [shr shr_m].
  replace (ez <=? emax - prec) with true
    by (symmetry; apply Z.leb_le; unfold emax, prec; lia).
  reflexivity.
Qed.

(** Rounding a value that is representable returns it. *)
Lemma binary_round_exact (sx : bool) (mx : positive) (ex : Z) :
  -1074 <= ex -> Zpos (digits2_pos mx) <= 53 ->
  fexp prec emax (Zpos (digits2_pos mx) + ex) <= 971 ->
  exists (m : positive) (e : Z),
    binary_round prec emax sx mx ex = S754_finite sx m e /\
    bounded prec emax m e = true /\
    Zpos m * 2 ^ (e + 1074) = Zpos mx * 2 ^ (ex + 1074).
Proof.
  intros Hex Hd HE. unfold binary_round.
  pose proof (shl_align_spec mx ex (fexp prec emax (Zpos (digits2_pos mx) + ex))) as Hs.
  destruct (shl_align mx ex _) as [mz ez].
  destruct Hs as [Hlt Hge].
  pose proof (fexp_eq (Zpos (digits2_pos mx) + ex)) as HF.
  assert (Hcan : fexp prec emax (Zpos (digits2_pos mz) + ez) = ez /\ ez <= 971 /\
                 Zpos mz * 2 ^ (ez + 1074) = Zpos mx * 2 ^ (ex + 1074)).
  { destruct (Z.lt_ge_cases (fexp prec emax (Zpos (digits2_pos mx) + ex)) ex) as [Hc|Hc].
    - destruct (Hlt Hc) as (Hm & He & Hdz). subst ez. split; [|split].
      + rewrite Hdz. f_equal. lia.
      + assumption.
      + rewrite Hm, <- Z.mul_assoc, <- Z.pow_add_r by lia. do 2 f_equal. lia.
    - destruct (Hge Hc) as [-> ->]. split; [|split]; [lia | lia | reflexivity]. }
  destruct Hcan as (Hc & He & Hv).
  exists mz, ez. split; [apply binary_round_aux_canonical; assumption|].
  split; [|assumption].
  unfold bounded, canonical_mantissa. apply andb_true_iff. split.
  - apply Z.eqb_eq. assumption.
  - apply Z.leb_le. unfold emax, prec. lia.
Qed.

Lemma digits_le_53 (p : positive) : Zpos p < 2 ^ 53 -> Zpos (digits2_pos p) <= 53.
Proof.
  intros H. pose proof (digits2_pos_bounds p) as [L _].
  destruct (Z.le_gt_cases (Zpos (digits2_pos p)) 53) as [|Hgt]; [assumption|].
  exfalso. assert (2 ^ 53 <= 2 ^ (Zpos (digits2_pos p) - 1))
    by (apply Z.pow_le_mono_r; lia). lia.
Qed.

Lemma bounded_lt_2_53 (m : positive) (e : Z) :
  bounded prec emax m e = true -> Zpos m < 2 ^ 53 /\ -1074 <= e <= 971.
Proof.
  intros H. destruct (bounded_inv m e H) as [Hc He].
  pose proof (digits2_pos_bounds m) as [_ U].
  split; [|lia].
  apply Z.lt_le_trans with (2 ^ Zpos (digits2_pos m)); [assumption|].
  apply Z.pow_le_mono_r; lia.
Qed.

(** The remainder of two finite doubles: a zero of the sign of the
    dividend, or a finite double of that sign, smaller than the divisor in
    magnitude. *)
Lemma fmod_finite (a b : float) (sa sb : bool) (ma mb : positive) (ea eb : Z) :
  Prim2SF a = S754_finite sa ma ea -> Prim2SF b = S754_finite sb mb eb ->
  Prim2SF (fmod a b) = S754_zero sa \/
  exists (mr : positive) (er : Z),
    Prim2SF (fmod a b) = S754_finite sa mr er /\
    bounded prec emax mr er = true /\
    Zpos mr * 2 ^ (er + 1074) < Zpos mb * 2 ^ (eb + 1074).
Proof.
  intros Ha Hb.
  pose proof (Prim2SF_valid a) as Va. rewrite Ha in Va. cbn [valid_binary SpecFloat.valid_binary] in Va.
  pose proof (Prim2SF_valid b) as Vb. rewrite Hb in Vb. cbn [valid_binary SpecFloat.valid_binary] in Vb.
  destruct (bounded_lt_2_53 ma ea Va) as [Hma Hea].
  destruct (bounded_lt_2_53 mb eb Vb) as [Hmb Heb].
  unfold fmod. rewrite Ha, Hb.
  set (e0 := Z.min ea eb).
  set (A := Zpos ma * 2 ^ (ea - e0)).
  set (B := Zpos mb * 2 ^ (eb - e0)).
  assert (PA : 0 < 2 ^ (ea - e0)) by (apply Z.pow_pos_nonneg; lia).
  assert (PB : 0 < 2 ^ (eb - e0)) by (apply Z.pow_pos_nonneg; lia).
  assert (HA : 0 < A) by (unfold A; lia).
  assert (HB : 0 < B) by (unfold B; lia).
  pose proof (Z.rem_bound_pos A B ltac:(lia) HB) as Hr.
  pose proof (Z.rem_le A B ltac:(lia) HB) as HrA.
  destruct (Z.rem A B) as [|rp|rp] eqn:Er; [left| right |lia].
  - replace (if sa then (- 0)%Z else 0%Z) with 0%Z by (destruct sa; reflexivity).
    cbn [binary_normalize]. apply Prim2SF_SF2Prim. reflexivity.
  - assert (Hrp : Zpos rp < 2 ^ 53).
    { destruct (Z.le_ge_cases ea eb) as [Hm|Hm].
      - assert (HA' : A = Zpos ma)
          by (unfold A, e0; rewrite Z.min_l, Z.sub_diag, Z.pow_0_r by lia; lia).
        lia.
      - assert (HB' : B = Zpos mb)
          by (unfold B, e0; rewrite Z.min_r, Z.sub_diag, Z.pow_0_r by lia; lia).
        lia. }
    destruct (binary_round_exact sa rp e0 ltac:(lia) (digits_le_53 rp Hrp))
      as (mr & er & HR & Hbd & Hv).
    { rewrite fexp_eq. pose proof (digits_le_53 rp Hrp). lia. }
    exists mr, er.
    assert (HN : binary_normalize prec emax (if sa then (- Zpos rp)%Z else Zpos rp) e0 sa
                 = S754_finite sa mr er).
    { destruct sa; cbn [binary_normalize Z.opp]; exact HR. }
    rewrite HN. split; [|split; [assumption|]].
    + apply Prim2SF_SF2Prim. assumption.
    + rewrite Hv.
      assert (P0 : 0 < 2 ^ (e0 + 1074)) by (apply Z.pow_pos_nonneg; lia).
      replace (Zpos mb * 2 ^ (eb + 1074)) with (B * 2 ^ (e0 + 1074)).
      * apply Zmult_lt_compat_r; lia.
      * unfold B. rewrite <- Z.mul_assoc, <- Z.pow_add_r by lia. do 2 f_equal. lia.
Qed.

Lemma SFleb_le_finite (m1 m2 : positive) (e1 e2 : Z) :
  le_finite m1 e1 m2 e2 ->
  SFleb (S754_finite false m1 e1) (S754_finite false m2 e2) = true.
Proof.
  unfold le_finite, SFleb, SFcompare. intros [Hlt|[He Hm]].
  - apply Z.compare_lt_iff in Hlt. rewrite Hlt. reflexivity.
  - subst e2. rewrite Z.compare_refl.
    change (Pos.compare_cont Eq m1 m2) with (Pos.compare m1 m2).
    destruct (Pos.compare_spec m1 m2); try reflexivity. lia.
Qed.

(** Two valid doubles compare as their values do. *)
Lemma bounded_le_finite (m1 m2 : positive) (e1 e2 : Z) :
  bounded prec emax m1 e1 = true -> bounded prec emax m2 e2 = true ->
  Zpos m1 * 2 ^ (e1 + 1074) <= Zpos m2 * 2 ^ (e2 + 1074) ->
  le_finite m1 e1 m2 e2.
Proof.
  intros H1 H2 Hle.
  destruct (bounded_inv m1 e1 H1) as [Hc1 He1].
  assert (Hf : e1 <= fexp prec emax (Zpos (digits2_pos m1) + e1))
    by (rewrite fexp_eq; lia).
  destruct (binary_round_aux_le false m1 m2 e1 e2 ltac:(lia) Hf H2 Hle)
    as (m & e & HR & Hfin).
  rewrite binary_round_aux_canonical in HR by (rewrite ?fexp_eq; lia).
  injection HR as -> ->. assumption.
Qed.

Lemma shl_align_fst (m : positive) (e e' : Z) :
  e' <= e -> Zpos (fst (shl_align m e e')) = Zpos m * 2 ^ (e - e').
Proof.
  intros H. pose proof (shl_align_spec m e e') as Hs.
  destruct (shl_align m e e') as [m' e'']. cbn [fst]. destruct Hs as [Hlt Hge].
  destruct (Z.eq_dec e e') as [->|Hne].
  - destruct (Hge ltac:(lia)) as [-> _]. rewrite Z.sub_diag, Z.pow_0_r. lia.
  - destruct (Hlt ltac:(lia)) as (-> & _). reflexivity.
Qed.

(** A negative finite double plus a larger positive one: the rounded sum is
    positive, finite and not above the positive operand. *)
Lemma SFadd_neg_pos (mr mb : positive) (er eb : Z) :
  bounded prec emax mr er = true -> bounded prec emax mb eb = true ->
  Zpos mr * 2 ^ (er + 1074) < Zpos mb * 2 ^ (eb + 1074) ->
  exists (m : positive) (e : Z),
    SF64add (S754_finite true mr er) (S754_finite false mb eb) = S754_finite false m e /\
    le_finite m e mb eb.
Proof.
  intros Hr Hb Hlt.
  destruct (bounded_lt_2_53 mr er Hr) as [_ Her].
  destruct (bounded_lt_2_53 mb eb Hb) as [_ Heb].
  unfold SF64add, SFadd. cbn [cond_Zopp].
  set (ez := Z.min er eb).
  rewrite (shl_align_fst mr er ez) by (unfold ez; lia).
  rewrite (shl_align_fst mb eb ez) by (unfold ez; lia).
  assert (P : 0 < 2 ^ (ez + 1074)) by (apply Z.pow_pos_nonneg; unfold ez; lia).
  assert (Vr : Zpos mr * 2 ^ (er + 1074) = Zpos mr * 2 ^ (er - ez) * 2 ^ (ez + 1074)).
  { rewrite <- Z.mul_assoc, <- Z.pow_add_r by (unfold ez; lia). do 2 f_equal. lia. }
  assert (Vb : Zpos mb * 2 ^ (eb + 1074) = Zpos mb * 2 ^ (eb - ez) * 2 ^ (ez + 1074)).
  { rewrite <- Z.mul_assoc, <- Z.pow_add_r by (unfold ez; lia). do 2 f_equal. lia. }
  assert (Pr : 0 < Zpos mr * 2 ^ (er - ez)).
  { apply Z.mul_pos_pos; [lia|]. apply Z.pow_pos_nonneg; unfold ez; lia. }
  assert (Hd : Zpos mr * 2 ^ (er - ez) < Zpos mb * 2 ^ (eb - ez)).
  { rewrite Vr, Vb in Hlt. apply Z.mul_lt_mono_pos_r in Hlt; assumption. }
  destruct (Z.add (Z.opp (Zpos mr * 2 ^ (er - ez))) (Zpos mb * 2 ^ (eb - ez)))
    as [|zp|zp] eqn:Ez; [lia| |lia].
  cbn [binary_normalize].
  apply binary_round_le; [unfold ez; lia | assumption |].
  rewrite Vb. apply Z.mul_le_mono_nonneg_r; lia.
Qed.
End RoundLe.

Section FixIEEE.
Local Open Scope float_scope.

Lemma positive_finite (m : float) :
  isFinite m = true -> (0 <? m) = true ->
  exists (mb : positive) (eb : Z), Prim2SF m = S754_finite false mb eb.
Proof.
  unfold isFinite. rewrite ltb_spec. change (Prim2SF 0) with (S754_zero false).
  destruct (Prim2SF m) as [s|s| |s mb eb]; try discriminate.
  destruct s; try discriminate. eauto.
Qed.

Lemma SFltb_lt_finite (m1 m2 : positive) (e1 e2 : Z) :
  le_finite m1 e1 m2 e2 ->
  (Zpos m1 * 2 ^ (e1 + 1074) < Zpos m2 * 2 ^ (e2 + 1074))%Z ->
  SFltb (S754_finite false m1 e1) (S754_finite false m2 e2) = true.
Proof.
  unfold le_finite, SFltb, SFcompare. intros [Hlt|[He Hm]] Hv.
  - apply Z.compare_lt_iff in Hlt. rewrite Hlt. reflexivity.
  - subst e2. rewrite Z.compare_refl.
    change (Pos.compare_cont Eq m1 m2) with (Pos.compare m1 m2).
    destruct (Pos.compare_spec m1 m2) as [->| |]; try reflexivity; lia.
Qed.

(** On doubles, for a finite [x] and a positive finite modulus, [fix x m] is
    a finite double in [[0, m]]; it is below [m] when the remainder is not
    negative. *)
Lemma fix_ieee_range (x m : float) :
  isFinite x = true -> isFinite m = true -> (0 <? m) = true ->
  isFinite (fix_ (N:=ieee) x m) = true /\
  (0 <=? fix_ (N:=ieee) x m) = true /\
  (fix_ (N:=ieee) x m <=? m) = true /\
  ((fmod x m <? 0) = false -> (fix_ (N:=ieee) x m <? m) = true).
Proof.
  intros Hx Hm Hpos.
  destruct (positive_finite m Hm Hpos) as (mb & eb & Em).
  pose proof (Prim2SF_valid m) as Vm. rewrite Em in Vm.
  cbn [valid_binary SpecFloat.valid_binary] in Vm.
  unfold fix_. cbn [nrem nltb nadd lit ieee].
  change (Q2float 0) with 0.
  unfold isFinite in Hx.
  destruct (Prim2SF x) as [sx|sx| |sx mx ex] eqn:Ex; try discriminate.
  - (* x is a zero: the remainder is x *)
    assert (Er : fmod x m = x) by (unfold fmod; rewrite Ex, Em; reflexivity).
    rewrite Er. rewrite (ltb_spec x 0), Ex. cbn.
    unfold isFinite. rewrite !leb_spec, ltb_spec, Ex, Em. repeat split.
  - destruct (fmod_finite x m sx false mx mb ex eb Ex Em)
      as [Er | (mr & er & Er & Vr & Hlt)].
    + (* the remainder is a zero *)
      rewrite (ltb_spec (fmod x m) 0), Er. cbn.
      unfold isFinite. rewrite !leb_spec, ltb_spec, Er, Em. repeat split.
    + rewrite (ltb_spec (fmod x m) 0), Er.
      change (Prim2SF 0) with (S754_zero false). destruct sx; cbn [SFltb SFcompare].
      * (* negative remainder: the sum with the modulus is rounded *)
        destruct (SFadd_neg_pos mr mb er eb Vr Vm Hlt) as (m' & e' & Ea & Hle).
        unfold isFinite. rewrite !leb_spec, add_spec, Er, Em, Ea.
        change (Prim2SF 0) with (S754_zero false).
        split; [reflexivity|]. split; [reflexivity|].
        split; [apply SFleb_le_finite, Hle | discriminate].
      * (* positive remainder *)
        assert (Hle : le_finite mr er mb eb)
          by (apply bounded_le_finite; try assumption; lia).
        unfold isFinite. rewrite !leb_spec, ltb_spec, Er, Em.
        change (Prim2SF 0) with (S754_zero false).
        split; [reflexivity|]. split; [reflexivity|].
        split; [apply SFleb_le_finite, Hle|].
        intros _. apply SFltb_lt_finite; assumption.
Qed.
(** On doubles, a negative remainder is remapped to the rounded sum with
    the modulus, which is positive. *)
Lemma fix_ieee_negative (x m : float) :
  isFinite x = true -> isFinite m = true -> (0 <? m) = true ->
  (fmod x m <? 0) = true ->
  fix_ (N:=ieee) x m = fmod x m + m /\ (0 <? fix_ (N:=ieee) x m) = true.
Proof.
  intros Hx Hm Hpos Hneg.
  assert (E : fix_ (N:=ieee) x m = fmod x m + m).
  { unfold fix_. cbn [nrem nltb nadd lit ieee]. change (Q2float 0) with 0.
    rewrite Hneg. reflexivity. }
  split; [exact E|]. rewrite E.
  destruct (positive_finite m Hm Hpos) as (mb & eb & Em).
  pose proof (Prim2SF_valid m) as Vm. rewrite Em in Vm.
  cbn [valid_binary SpecFloat.valid_binary] in Vm.
  rewrite ltb_spec in Hneg. change (Prim2SF 0) with (S754_zero false) in Hneg.
  unfold isFinite in Hx.
  destruct (Prim2SF x) as [sx|sx| |sx mx ex] eqn:Ex; try discriminate.
  - assert (Er : fmod x m = x) by (unfold fmod; rewrite Ex, Em; reflexivity).
    rewrite Er, Ex in Hneg. discriminate.
  - destruct (fmod_finite x m sx false mx mb ex eb Ex Em)
      as [Er | (mr & er & Er & Vr & Hlt)].
    + rewrite Er in Hneg. discriminate.
    + rewrite Er in Hneg. destruct sx; [|discriminate].
      destruct (SFadd_neg_pos mr mb er eb Vr Vm Hlt) as (m' & e' & Ea & _).
      rewrite ltb_spec, add_spec, Er, Em, Ea. reflexivity.
Qed.
End FixIEEE.

(** ** The shape of [sunAngleTime] and of [getTimes] *)

Section Unfolding.
Context {N : Number} (M : MathLib N).
Local Open Scope num_scope.

Lemma sunAngleTime_hourAngle (jd lat ang time : number) (ccw : bool) :
  sunAngleTime M jd lat ang time ccw
  = midDay M jd time + (if ccw then - hourAngle M jd lat ang time
                        else hourAngle M jd lat ang time).
Proof.
  unfold sunAngleTime, midDay, hourAngle, sunAngleArg.
  destruct (sunPosition M (jd + time)) as [decl eqt]. reflexivity.
Qed.

Lemma clamp_None (time base ang night : number) (ccw : bool) :
  PrayerManager.clamp None time base ang night ccw = time.
Proof. reflexivity. Qed.

Lemma clamp_Some (hl : HightLatMethods.t) (time base ang night : number) (ccw : bool) :
  PrayerManager.clamp (Some hl) time base ang night ccw
  = PrayerManager.adjustHighlatTime hl time base ang night ccw.
Proof. reflexivity. Qed.

(** Every field of the result in terms of the markers' first values. *)
Lemma getTimes_unfold (this : PrayerManager.t N) (date : Date) (coords : Coordinates N) :
  let method := PrayerManager.method this in
  let hl := PrayerManager.hightLatMethod this in
  let t := PrayerManager.getTimes M this date coords in
  let raw := PrayerManager.rawTime M date coords in
  let alt := default (lit 0) (altitude coords) in
  let night := timeDiff (PrayerTimes.sunset t) (PrayerTimes.sunrise t) in
  let clamp := PrayerManager.clamp hl in
  PrayerTimes.sunrise t = raw (riseSetAngle M alt) (lit 6 / lit 24) true /\
  PrayerTimes.sunset t = raw (riseSetAngle M alt) (lit 18 / lit 24) false /\
  PrayerTimes.dhuhr t
  = midDay M (PrayerManager.julianDay date coords) (lit 12 / lit 24)
    - PrayerManager.adjust coords + RequiredMethod.dhuhr method / lit 60 /\
  PrayerTimes.asr t
  = asrTime M (PrayerManager.julianDay date coords) (latitude coords)
      (RequiredMethod.asr method) (lit 13 / lit 24) - PrayerManager.adjust coords /\
  PrayerTimes.fajr t
  = clamp (raw (RequiredMethod.fajr method) (lit 5 / lit 24) true)
      (PrayerTimes.sunrise t) (RequiredMethod.fajr method) night true /\
  PrayerTimes.imsak t
  = match type (RequiredMethod.imsak method) with
    | minute => PrayerTimes.fajr t - value (RequiredMethod.imsak method) / lit 60
    | angle => clamp (raw (value (RequiredMethod.imsak method)) (lit 5 / lit 24) true)
                 (PrayerTimes.sunrise t) (value (RequiredMethod.imsak method)) night true
    end /\
  PrayerTimes.maghrib t
  = match type (RequiredMethod.maghrib method) with
    | minute => PrayerTimes.sunset t - value (RequiredMethod.maghrib method) / lit 60
    | angle => clamp (raw (value (RequiredMethod.maghrib method)) (lit 18 / lit 24) false)
                 (PrayerTimes.sunset t) (value (RequiredMethod.maghrib method)) night false
    end /\
  PrayerTimes.isha t
  = match type (RequiredMethod.isha method) with
    | minute => PrayerTimes.maghrib t - value (RequiredMethod.isha method) / lit 60
    | angle => clamp (raw (value (RequiredMethod.isha method)) (lit 18 / lit 24) false)
                 (PrayerTimes.sunset t) (value (RequiredMethod.isha method)) night false
    end /\
  PrayerTimes.midnight t
  = PrayerTimes.sunset t
    + match RequiredMethod.midnight method with
      | MidnightMethod.Standard => timeDiff (PrayerTimes.sunset t) (PrayerTimes.sunrise t)
      | MidnightMethod.Jafari => timeDiff (PrayerTimes.sunset t) (PrayerTimes.fajr t)
      end / lit 2.
Proof.
  cbv zeta. unfold PrayerManager.getTimes, PrayerManager.clamp, PrayerManager.rawTime,
    PrayerManager.julianDay, PrayerManager.adjust.
  destruct (PrayerManager.hightLatMethod this);
    cbn [PrayerTimes.imsak PrayerTimes.fajr PrayerTimes.sunrise
      PrayerTimes.dhuhr PrayerTimes.asr PrayerTimes.sunset PrayerTimes.maghrib
      PrayerTimes.isha PrayerTimes.midnight]; split_and!; reflexivity.
Qed.
End Unfolding.

(** ** IEEE-754: NaN through the solver and the high-latitude step *)

Section IEEEProgram.
Local Existing Instance ieee.
Context (M : MathLib ieee).
Local Open Scope float_scope.

Lemma refMath_ECMAScript : ECMAScriptMath refMath.
Proof.
  split.
  - reflexivity.
  - intros x H. cbn [Math_acos refMath]. unfold RefMath.acos.
    rewrite H, orb_true_r. reflexivity.
  - intros x H. cbn [Math_acos refMath]. unfold RefMath.acos.
    rewrite H, orb_true_r. reflexivity.
Qed.

Lemma arccos_outside (HM : ECMAScriptMath M) (x : float) :
  outsideUnit x = true -> arccos M x = nan.
Proof.
  unfold outsideUnit, arccos, toDegrees. intros H.
  apply orb_true_iff in H as [H|H].
  - rewrite (acos_below M HM x H). cbn [nmul ndiv ieee]. now rewrite mul_nan_l, div_nan_l.
  - rewrite (acos_above M HM x H). cbn [nmul ndiv ieee]. now rewrite mul_nan_l, div_nan_l.
Qed.

Lemma sunAngleTime_NaN (HM : ECMAScriptMath M) (jd lat ang time : float) (ccw : bool) :
  outsideUnit (sunAngleArg M jd lat ang time) = true ->
  sunAngleTime M jd lat ang time ccw = nan.
Proof.
  intros H. rewrite sunAngleTime_hourAngle. unfold hourAngle.
  rewrite (arccos_outside HM _ H). cbn [nmul nadd nneg ieee].
  rewrite mul_nan_r. destruct ccw; [rewrite opp_nan|]; apply add_nan_r.
Qed.

Lemma rawTime_NaN (HM : ECMAScriptMath M) (date : Date) (coords : Coordinates ieee)
    (ang time : float) (ccw : bool) :
  outsideUnit (sunAngleArg M (PrayerManager.julianDay date coords) (latitude coords)
                 ang time) = true ->
  PrayerManager.rawTime M date coords ang time ccw = nan.
Proof.
  intros H. unfold PrayerManager.rawTime. rewrite (sunAngleTime_NaN HM _ _ _ _ _ H).
  apply sub_nan_l.
Qed.

(** The adjustment of a NaN time is the anchor moved by the portion. *)
Lemma adjustHighlatTime_NaN (hl : HightLatMethods.t) (base ang night : float) (ccw : bool) :
  PrayerManager.adjustHighlatTime (N:=ieee) hl nan base ang night ccw
  = if ccw then base - PrayerManager.nightPortion hl ang night
    else base + PrayerManager.nightPortion hl ang night.
Proof.
  unfold PrayerManager.adjustHighlatTime.
  replace (if ccw then timeDiff (N:=ieee) nan base else timeDiff (N:=ieee) base nan) with nan
    by (destruct ccw; [rewrite timeDiff_nan_l | rewrite timeDiff_nan_r]; reflexivity).
  cbn [nltb nadd nneg ieee]. rewrite ltb_nan_l. destruct ccw; [|reflexivity].
  apply Prim2SF_inj. rewrite add_spec, sub_spec, opp_spec.
  destruct (Prim2SF base) as [sa|sa| |sa ma ea],
    (Prim2SF (PrayerManager.nightPortion (N:=ieee) hl ang night)) as [sb|sb| |sb mb eb];
    try reflexivity; try (destruct sa, sb; reflexivity).
Qed.

Lemma adjustHighlatTime_not_NaN (hl : HightLatMethods.t)
    (time base ang night : float) (ccw : bool) :
  isFinite base = true ->
  isNaN (PrayerManager.nightPortion hl ang night) = false ->
  isNaN (PrayerManager.adjustHighlatTime (N:=ieee) hl time base ang night ccw) = false.
Proof.
  intros Hb Hp. unfold PrayerManager.adjustHighlatTime.
  set (portion := PrayerManager.nightPortion (N:=ieee) hl ang night) in *.
  destruct (nltb _ portion) eqn:Hcmp.
  - destruct (isNaN time) eqn:Ht; [|reflexivity]. exfalso.
    apply isNaN_true in Ht. subst time.
    replace (if ccw then timeDiff (N:=ieee) nan base else timeDiff (N:=ieee) base nan) with nan in Hcmp
      by (destruct ccw; [rewrite timeDiff_nan_l | rewrite timeDiff_nan_r]; reflexivity).
    cbn [nltb ieee] in Hcmp. rewrite ltb_nan_l in Hcmp. discriminate.
  - cbn [nadd nneg ieee]. apply add_not_NaN; [assumption|].
    destruct ccw; [apply opp_not_NaN|]; assumption.
Qed.
Lemma nightPortion_NaN (hl : HightLatMethods.t) (ang : float) :
  PrayerManager.nightPortion (N:=ieee) hl ang nan = nan.
Proof. unfold PrayerManager.nightPortion. cbn [nmul ieee]. apply mul_nan_r. Qed.

(** With a NaN portion the adjustment returns NaN, whatever the time. *)
Lemma adjustHighlatTime_NaN_portion (hl : HightLatMethods.t)
    (time base ang night : float) (ccw : bool) :
  PrayerManager.nightPortion (N:=ieee) hl ang night = nan ->
  PrayerManager.adjustHighlatTime (N:=ieee) hl time base ang night ccw = nan.
Proof.
  intros H. unfold PrayerManager.adjustHighlatTime. rewrite H.
  cbn [nltb nadd nneg ieee]. rewrite ltb_nan_r.
  destruct ccw; [rewrite opp_nan|]; apply add_nan_r.
Qed.
End IEEEProgram.

(** ** The preset table *)

Section Presets.
Context {N : Number}.

Lemma presets_lookup_ne (name : string) (b1 b2 : bool) :
  name <> CalculationMethods.Makkah ->
  presets (N:=N) b1 !! name = presets b2 !! name.
Proof.
  intros Hne. unfold presets.
  rewrite !lookup_insert.
  repeat case_decide; try reflexivity. congruence.
Qed.

Lemma presets_lookup_None (name : string) (b : bool) :
  name ∉ presetNames -> presets (N:=N) b !! name = None.
Proof.
  intros Hn. unfold presets. rewrite !lookup_insert.
  repeat case_decide; try (exfalso; apply Hn; subst name; unfold presetNames; set_solver).
  apply lookup_empty.
Qed.

(** C8. [getCalculationMethod('Makkah')] has isha [{minute, 90}] and
    [getCalculationMethod('Makkah', true)] has isha [{minute, 120}]; the two
    descriptors agree on every other member (the same fajr, nothing else
    set); for every name other than Makkah the result does not depend on
    the [isRamadan] argument. *)
Theorem Makkah_isha_ramadan :
  getCalculationMethod (N:=N) "Makkah" None
  = Own (preset (lit 19.5) {| type := minute; value := lit 90 |}) /\
  getCalculationMethod (N:=N) "Makkah" (Some true)
  = Own (preset (lit 19.5) {| type := minute; value := lit 120 |}) /\
  (forall (name : string) (r1 r2 : option bool),
     name <> "Makkah" ->
     getCalculationMethod (N:=N) name r1 = getCalculationMethod name r2).
Proof.
  split_and!; [reflexivity | reflexivity |].
  intros name r1 r2 Hne. unfold getCalculationMethod, getProperty.
  rewrite (presets_lookup_ne name (default false r1) (default false r2) Hne).
  reflexivity.
Qed.

(** C9 (amended). A name that is neither one of the eight presets nor a
    property name of [Object.prototype] reads [undefined]; a name of
    [Object.prototype] that is no preset reads the inherited member; each of
    the eight presets reads its descriptor. The lookup is total: no input
    raises. *)
Theorem getCalculationMethod_lookup (isRamadan : option bool) :
  (forall name : string,
     name ∉ presetNames -> name ∉ Object_prototype ->
     getCalculationMethod (N:=N) name isRamadan = undefined) /\
  (forall name : string,
     name ∉ presetNames -> name ∈ Object_prototype ->
     getCalculationMethod (N:=N) name isRamadan = Inherited name) /\
  getCalculationMethod (N:=N) "MWL" isRamadan
  = Own (preset (lit 18) {| type := angle; value := lit 17 |}) /\
  getCalculationMethod (N:=N) "ISNA" isRamadan
  = Own (preset (lit 15) {| type := angle; value := lit 15 |}) /\
  getCalculationMethod (N:=N) "Egypt" isRamadan
  = Own (preset (lit 19.5) {| type := angle; value := lit 17.5 |}) /\
  getCalculationMethod (N:=N) "Makkah" isRamadan
  = Own (preset (lit 19.5)
           {| type := minute;
              value := if default false isRamadan then lit 120 else lit 90 |}) /\
  getCalculationMethod (N:=N) "Karachi" isRamadan
  = Own (preset (lit 18) {| type := angle; value := lit 18 |}) /\
  getCalculationMethod (N:=N) "Tehran" isRamadan
  = Own (CalculationMethod.mk None (lit 17.7) None None
           (Some {| type := angle; value := lit 4.5 |})
           {| type := angle; value := lit 14 |} (Some MidnightMethod.Jafari)) /\
  getCalculationMethod (N:=N) "Jafari" isRamadan
  = Own (CalculationMethod.mk None (lit 16) None None
           (Some {| type := angle; value := lit 4 |})
           {| type := angle; value := lit 14 |} (Some MidnightMethod.Jafari)) /\
  getCalculationMethod (N:=N) "MF" isRamadan
  = Own (preset (lit 12) {| type := angle; value := lit 12 |}).
Proof.
  split_and!; try reflexivity.
  - intros name Hp Ho. unfold getCalculationMethod, getProperty.
    rewrite presets_lookup_None by assumption.
    rewrite bool_decide_eq_false_2 by assumption. reflexivity.
  - intros name Hp Ho. unfold getCalculationMethod, getProperty.
    rewrite presets_lookup_None by assumption.
    rewrite bool_decide_eq_true_2 by assumption. reflexivity.
Qed.

(** C10. [createCalculationMethod] passes every present member through
    unchanged (the required fajr and isha included) and fills each absent
    optional member with its default; a complete method is returned as it
    is, so completing a method twice is completing it once. *)
Theorem createCalculationMethod_idempotent (m : CalculationMethod.t N) :
  let r := createCalculationMethod m in
  (RequiredMethod.fajr r = CalculationMethod.fajr m /\
   RequiredMethod.isha r = CalculationMethod.isha m) /\
  ((forall v, CalculationMethod.imsak m = Some v -> RequiredMethod.imsak r = v) /\
   (forall v, CalculationMethod.dhuhr m = Some v -> RequiredMethod.dhuhr r = v) /\
   (forall v, CalculationMethod.asr m = Some v -> RequiredMethod.asr r = v) /\
   (forall v, CalculationMethod.maghrib m = Some v -> RequiredMethod.maghrib r = v) /\
   (forall v, CalculationMethod.midnight m = Some v ->
              RequiredMethod.midnight r = v)) /\
  ((CalculationMethod.imsak m = None ->
    RequiredMethod.imsak r = {| type := minute; value := lit 10 |}) /\
   (CalculationMethod.dhuhr m = None -> RequiredMethod.dhuhr r = lit 0) /\
   (CalculationMethod.asr m = None -> RequiredMethod.asr r = AsrJuristic.Standard) /\
   (CalculationMethod.maghrib m = None ->
    RequiredMethod.maghrib r = {| type := minute; value := lit 0 |}) /\
   (CalculationMethod.midnight m = None ->
    RequiredMethod.midnight r = MidnightMethod.Standard)) /\
  (forall c : RequiredMethod.t N,
     createCalculationMethod (RequiredMethod.forget c) = c) /\
  createCalculationMethod (RequiredMethod.forget r) = r.
Proof.
  cbv zeta. destruct m as [i f d a mg ish mid].
  unfold createCalculationMethod.
  cbn [CalculationMethod.imsak CalculationMethod.fajr CalculationMethod.dhuhr
       CalculationMethod.asr CalculationMethod.maghrib CalculationMethod.isha
       CalculationMethod.midnight RequiredMethod.imsak RequiredMethod.fajr
       RequiredMethod.dhuhr RequiredMethod.asr RequiredMethod.maghrib
       RequiredMethod.isha RequiredMethod.midnight RequiredMethod.forget].
  split_and!; try reflexivity.
  - intros v ->. reflexivity.
  - intros v ->. reflexivity.
  - intros v ->. reflexivity.
  - intros v ->. reflexivity.
  - intros v ->. reflexivity.
  - intros ->. reflexivity.
  - intros ->. reflexivity.
  - intros ->. reflexivity.
  - intros ->. reflexivity.
  - intros ->. reflexivity.
  - intros c. destruct c. reflexivity.
Qed.
End Presets.

(** C9, on the name of the spec's scenario. *)
Lemma getCalculationMethod_NotAMethod :
  getCalculationMethod (N:=ieee) "NotAMethod" None = undefined.
Proof.
  apply (getCalculationMethod_lookup (N:=ieee) None);
    refine (bool_decide_unpack _ _); vm_compute; exact I.
Defined.

(** C9 as stated fails: ["toString"] is none of the eight names, and the
    lookup returns the member inherited from [Object.prototype], not
    [undefined]. *)
Lemma getCalculationMethod_toString :
  ("toString" ∉ presetNames) /\
  getCalculationMethod (N:=ieee) "toString" None = Inherited "toString" /\
  getCalculationMethod (N:=ieee) "toString" None <> undefined.
Proof.
  split_and!.
  - refine (bool_decide_unpack _ _). vm_compute. exact I.
  - reflexivity.
  - discriminate.
Qed.

(** ** [getTimes] and the high-latitude step, for every interpretation *)

Section Orchestrator.
Context {N : Number} (M : MathLib N).
Local Open Scope num_scope.

(** C1 (amended). The time is kept when the night portion exceeds the
    forward difference between the time and its anchor; otherwise (portion
    not above the difference, which includes an incomparable difference) it
    is replaced by the anchor minus the portion on the before-dawn side and
    the anchor plus the portion on the after-dusk side. *)
Theorem adjustHighlatTime_branches
    (hl : HightLatMethods.t) (time base angle night : number) (ccw : bool) :
  let portion := PrayerManager.nightPortion hl angle night in
  let diff := if ccw then timeDiff time base else timeDiff base time in
  ((portion >? diff) = true ->
     PrayerManager.adjustHighlatTime hl time base angle night ccw = time) /\
  ((portion >? diff) = false ->
     PrayerManager.adjustHighlatTime hl time base angle night ccw
     = if ccw then base + - portion else base + portion).
Proof.
  intros portion diff. unfold PrayerManager.adjustHighlatTime.
  fold portion. fold diff. split; intros ->; destruct ccw; reflexivity.
Qed.

(** C5. A minute-typed imsak, maghrib or isha is the minute formula on the
    fields of the same result: imsak from the returned fajr (the fajr after
    the high-latitude step), maghrib from sunset, isha from the returned
    maghrib (itself minute-derived or angle-derived); an angle-typed one is
    the solver's value after the high-latitude step. *)
Theorem minute_overrides (this : PrayerManager.t N) (date : Date)
    (coords : Coordinates N) :
  let method := PrayerManager.method this in
  let t := PrayerManager.getTimes M this date coords in
  let raw := PrayerManager.rawTime M date coords in
  let night := timeDiff (PrayerTimes.sunset t) (PrayerTimes.sunrise t) in
  let clamp := PrayerManager.clamp (PrayerManager.hightLatMethod this) in
  PrayerTimes.fajr t
  = clamp (raw (RequiredMethod.fajr method) (lit 5 / lit 24) true)
      (PrayerTimes.sunrise t) (RequiredMethod.fajr method) night true /\
  PrayerTimes.imsak t
  = match type (RequiredMethod.imsak method) with
    | minute => PrayerTimes.fajr t - value (RequiredMethod.imsak method) / lit 60
    | angle => clamp (raw (value (RequiredMethod.imsak method)) (lit 5 / lit 24) true)
                 (PrayerTimes.sunrise t) (value (RequiredMethod.imsak method)) night true
    end /\
  PrayerTimes.maghrib t
  = match type (RequiredMethod.maghrib method) with
    | minute => PrayerTimes.sunset t - value (RequiredMethod.maghrib method) / lit 60
    | angle => clamp (raw (value (RequiredMethod.maghrib method)) (lit 18 / lit 24) false)
                 (PrayerTimes.sunset t) (value (RequiredMethod.maghrib method)) night false
    end /\
  PrayerTimes.isha t
  = match type (RequiredMethod.isha method) with
    | minute => PrayerTimes.maghrib t - value (RequiredMethod.isha method) / lit 60
    | angle => clamp (raw (value (RequiredMethod.isha method)) (lit 18 / lit 24) false)
                 (PrayerTimes.sunset t) (value (RequiredMethod.isha method)) night false
    end.
Proof.
  cbv zeta.
  destruct (getTimes_unfold M this date coords)
    as (_ & _ & _ & _ & Hfajr & Himsak & Hmaghrib & Hisha & _).
  split_and!; assumption.
Qed.

(** C6. Replacing the method's isha by any other calculation type changes
    no field but isha; replacing maghrib changes no field but maghrib and
    isha; replacing imsak changes no field but imsak. In each case sunrise,
    dhuhr, asr and sunset (and fajr and midnight) are the same in the two
    results. *)
Theorem minute_switch_frame (hl : option HightLatMethods.t)
    (m : RequiredMethod.t N) (c : CalculationType N)
    (date : Date) (coords : Coordinates N) :
  let times m' := PrayerManager.getTimes M (PrayerManager.mk m' hl) date coords in
  let t := times m in
  let t_isha :=
    times (RequiredMethod.mk (RequiredMethod.imsak m) (RequiredMethod.fajr m)
             (RequiredMethod.dhuhr m) (RequiredMethod.asr m)
             (RequiredMethod.maghrib m) c (RequiredMethod.midnight m)) in
  let t_maghrib :=
    times (RequiredMethod.mk (RequiredMethod.imsak m) (RequiredMethod.fajr m)
             (RequiredMethod.dhuhr m) (RequiredMethod.asr m)
             c (RequiredMethod.isha m) (RequiredMethod.midnight m)) in
  let t_imsak :=
    times (RequiredMethod.mk c (RequiredMethod.fajr m)
             (RequiredMethod.dhuhr m) (RequiredMethod.asr m)
             (RequiredMethod.maghrib m) (RequiredMethod.isha m)
             (RequiredMethod.midnight m)) in
  let same_sun (t' : PrayerTimes.t N) :=
    PrayerTimes.fajr t' = PrayerTimes.fajr t /\
    PrayerTimes.sunrise t' = PrayerTimes.sunrise t /\
    PrayerTimes.dhuhr t' = PrayerTimes.dhuhr t /\
    PrayerTimes.asr t' = PrayerTimes.asr t /\
    PrayerTimes.sunset t' = PrayerTimes.sunset t /\
    PrayerTimes.midnight t' = PrayerTimes.midnight t in
  (same_sun t_isha /\
   PrayerTimes.imsak t_isha = PrayerTimes.imsak t /\
   PrayerTimes.maghrib t_isha = PrayerTimes.maghrib t) /\
  (same_sun t_maghrib /\
   PrayerTimes.imsak t_maghrib = PrayerTimes.imsak t) /\
  (same_sun t_imsak /\
   PrayerTimes.maghrib t_imsak = PrayerTimes.maghrib t /\
   PrayerTimes.isha t_imsak = PrayerTimes.isha t).
Proof.
  cbv zeta. unfold PrayerManager.getTimes.
  cbn [PrayerManager.method PrayerManager.hightLatMethod RequiredMethod.imsak
       RequiredMethod.fajr RequiredMethod.dhuhr RequiredMethod.asr
       RequiredMethod.maghrib RequiredMethod.isha RequiredMethod.midnight].
  destruct hl; cbn [PrayerTimes.imsak PrayerTimes.fajr PrayerTimes.sunrise
      PrayerTimes.dhuhr PrayerTimes.asr PrayerTimes.sunset PrayerTimes.maghrib
      PrayerTimes.isha PrayerTimes.midnight]; split_and!; reflexivity.
Qed.
End Orchestrator.

(** C1, on doubles: with NightMiddle, a night of 10 hours and a time one
    hour before its anchor, the portion 5 exceeds the difference 1 and the
    time is kept. *)
Lemma adjustHighlatTime_in_range :
  PrayerManager.adjustHighlatTime (N:=ieee) HightLatMethods.NightMiddle 5%float 6%float 18%float
    10%float true = 5%float.
Proof.
  apply (adjustHighlatTime_branches (N:=ieee) HightLatMethods.NightMiddle 5%float 6%float 18%float
           10%float true).
  vm_compute. reflexivity.
Defined.

(** C1 as stated fails. With NightMiddle and a night of 10 hours, the time 5
    lies 1 hour before its anchor 6: the portion 5 exceeds the difference 1,
    and the time is returned unchanged, not replaced by anchor - portion = 1.
    With a night of 4 hours, the time 2 lies 4 hours before the anchor 6: the
    portion 2 does not exceed the difference 4, and the result is
    anchor - portion = 4, not the original time 2. *)
Lemma adjustHighlatTime_not_as_stated :
  (let portion := PrayerManager.nightPortion (N:=ieee) HightLatMethods.NightMiddle 18%float 10%float in
   let diff := timeDiff (N:=ieee) 5%float 6%float in
   portion = 5%float /\ diff = 1%float /\ (portion >? diff)%num = true /\
   PrayerManager.adjustHighlatTime (N:=ieee) HightLatMethods.NightMiddle 5%float 6%float 18%float
     10%float true = 5%float /\
   (6 - portion = 1)%float) /\
  (let portion := PrayerManager.nightPortion (N:=ieee) HightLatMethods.NightMiddle 18%float 4%float in
   let diff := timeDiff (N:=ieee) 2%float 6%float in
   portion = 2%float /\ diff = 4%float /\ (portion <=? diff)%float = true /\
   PrayerManager.adjustHighlatTime (N:=ieee) HightLatMethods.NightMiddle 2%float 6%float 18%float
     4%float true = 4%float).
Proof. vm_compute. repeat split. Qed.

(** ** [fix]: doubles and exact arithmetic *)

Section FixPeriod.
Local Open Scope Q_scope.

(** In exact arithmetic [fix] has period [m]. *)
Lemma fix_exact_period (x m : Q) (k : Z) :
  0 < m -> fix_ (N:=exact) (x + inject_Z k * m) m == fix_ (N:=exact) x m.
Proof.
  intros Hm. rewrite !fix_exact_floor by assumption.
  assert (E : (x + inject_Z k * m) / m == x / m + inject_Z k) by (field; lra).
  rewrite (Qfloor_comp _ _ E), Qfloor_shift, inject_Z_plus. ring.
Qed.
End FixPeriod.

Section FixClaim.

(** C7 (amended). On doubles, for every finite [x] and positive finite
    modulus [m], [fix x m] is a finite double in [[0, m]]: when the
    remainder [x % m] is not negative the result is that remainder and is
    below [m]; when the remainder is negative the result is the rounded sum
    [x % m + m], which is above 0 (and at most [m]). In exact arithmetic,
    for a positive modulus [m], [fix x m] lies in [[0, m)], is the true
    (floored) modulo [x - m * floor (x / m)], and is unchanged when an
    integer multiple of [m] is added to [x]. *)
Theorem fix_range_and_period :
  (forall x m : float,
     isFinite x = true -> isFinite m = true -> (0 <? m)%float = true ->
     isFinite (fix_ (N:=ieee) x m) = true /\
     (0 <=? fix_ (N:=ieee) x m)%float = true /\
     (fix_ (N:=ieee) x m <=? m)%float = true /\
     ((fmod x m <? 0)%float = false ->
      fix_ (N:=ieee) x m = fmod x m /\
      (fix_ (N:=ieee) x m <? m)%float = true) /\
     ((fmod x m <? 0)%float = true ->
      fix_ (N:=ieee) x m = (fmod x m + m)%float /\
      (0 <? fix_ (N:=ieee) x m)%float = true)) /\
  (forall x m : Q,
     (0 < m)%Q ->
     (0 <= fix_ (N:=exact) x m /\ fix_ (N:=exact) x m < m)%Q /\
     (fix_ (N:=exact) x m == x - m * inject_Z (Qfloor (x / m)))%Q /\
     (forall k : Z,
        fix_ (N:=exact) (x + inject_Z k * m) m == fix_ (N:=exact) x m)%Q).
Proof.
  split.
  - intros x m Hx Hm Hpos.
    destruct (fix_ieee_range x m Hx Hm Hpos) as (H1 & H2 & H3 & H4).
    split_and!; try assumption.
    + intros Hr. split; [|exact (H4 Hr)].
      unfold fix_. cbn [nrem nltb nadd lit ieee]. change (Q2float 0) with 0%float.
      rewrite Hr. reflexivity.
    + intros Hr. apply fix_ieee_negative; assumption.
  - intros x m Hm. split; [|split].
    + apply fix_exact_range, Hm.
    + apply fix_exact_floor, Hm.
    + intros k. apply fix_exact_period, Hm.
Qed.

(** C7 on the hour -25.5, as a double and as a rational. *)
Lemma fix_hours :
  (isFinite (fix_ (N:=ieee) (-25.5)%float 24%float) = true /\
   (0 <=? fix_ (N:=ieee) (-25.5)%float 24%float)%float = true /\
   (fix_ (N:=ieee) (-25.5)%float 24%float <=? 24)%float = true /\
   fix_ (N:=ieee) (-25.5)%float 24%float = (fmod (-25.5) 24 + 24)%float /\
   (0 <? fix_ (N:=ieee) (-25.5)%float 24%float)%float = true) /\
  ((0 <= fix_ (N:=exact) (-25.5) 24 /\ fix_ (N:=exact) (-25.5) 24 < 24)%Q /\
   (fix_ (N:=exact) (-25.5) 24 == -25.5 - 24 * inject_Z (Qfloor (-25.5 / 24)))%Q /\
   (forall k : Z,
      fix_ (N:=exact) (-25.5 + inject_Z k * 24) 24
      == fix_ (N:=exact) (-25.5) 24)%Q).
Proof.
  destruct fix_range_and_period as [Hieee Hexact]. split.
  - destruct (Hieee (-25.5)%float 24%float) as (H1 & H2 & H3 & _ & H5);
      [reflexivity | reflexivity | reflexivity |].
    destruct (H5 eq_refl) as [H6 H7].
    split_and!; assumption.
  - apply (Hexact (-25.5)%Q 24%Q). reflexivity.
Defined.
End FixClaim.

(** C7 as stated fails on doubles. The remainder of -1e-20 by 24 is
    -1e-20; it is negative, and the sum -1e-20 + 24 rounds to 24: the result
    is the modulus itself, outside [[0, 24)]. Adding the modulus to the
    argument changes the result by the whole modulus: [-1e-20 + 1 * 24] is
    24, whose [fix] is 0. And the sum [0.1 + 1 * 24] is rounded before [fix]
    sees it, so [fix (0.1 + 1 * 24) 24] is not [fix 0.1 24]. *)
Lemma fix_ieee_not_as_stated :
  (fix_ (N:=ieee) (-1e-20)%float 24%float = 24%float /\
   (fix_ (N:=ieee) (-1e-20)%float 24%float <? 24)%float = false) /\
  fix_ (N:=ieee) (-1e-20 + 1 * 24)%float 24%float = 0%float /\
  (fix_ (N:=ieee) (0.1 + 1 * 24)%float 24%float
   =? fix_ (N:=ieee) 0.1%float 24%float)%float = false.
Proof. vm_compute. repeat split. Qed.

(** ** Solar ordering *)

Section OrderingClaim.
Context (M : MathLib exact).
Local Open Scope Q_scope.

End OrderingClaim.






(** A method with a dhuhr offset of 1000 minutes, at the location and date
    of the regression test: dhuhr is later than sunset. *)
Lemma dhuhr_after_sunset :
  let t := PrayerManager.getTimes refMath (PrayerManager.new MWL_late_dhuhr None)
             date_2021_04_12 aHouse in
  isFinite (PrayerTimes.sunrise t) = true /\
  isFinite (PrayerTimes.sunset t) = true /\
  (PrayerTimes.sunrise t <? PrayerTimes.sunset t)%float = true /\
  (PrayerTimes.dhuhr t <? PrayerTimes.sunset t)%float = false /\
  (PrayerTimes.sunset t <? PrayerTimes.dhuhr t)%float = true.
Proof. vm_compute. repeat split. Qed.

(** ** NaN in [getTimes] *)

Section IEEEClaims.
Local Existing Instance ieee.
Context (M : MathLib ieee).
Local Open Scope num_scope.

(** C3 (amended). When the argument of arccos inside [sunAngleTime] is
    outside [[-1, 1]], [sunAngleTime] returns NaN. In [getTimes] that NaN is
    the value of sunrise, sunset and asr whatever the high-latitude setting,
    and of fajr and an angle-typed imsak, maghrib or isha when no
    high-latitude method is configured; with a high-latitude method such a
    fajr or imsak is returned as sunrise minus the night portion, and such a
    maghrib or isha as sunset plus the night portion. A NaN in a returned
    field is in every field computed from it: a NaN fajr makes a
    minute-typed imsak NaN and midnight NaN under the Jafari midnight
    method; a NaN sunrise makes the standard midnight NaN; a NaN sunset
    makes midnight and a minute-typed maghrib NaN; a NaN maghrib makes a
    minute-typed isha NaN; and with a high-latitude method a NaN sunrise or
    sunset makes fajr and every angle-typed imsak, maghrib and isha NaN. *)
Theorem NaN_propagates (HM : ECMAScriptMath M) :
  (forall (jd lat ang time : float) (ccw : bool),
     outsideUnit (sunAngleArg M jd lat ang time) = true ->
     sunAngleTime M jd lat ang time ccw = nan) /\
  (forall (this : PrayerManager.t ieee) (date : Date) (coords : Coordinates ieee),
     let method := PrayerManager.method this in
     let t := PrayerManager.getTimes M this date coords in
     let jd := PrayerManager.julianDay date coords in
     let lat := latitude coords in
     let noCrossing (ang time : float) :=
       outsideUnit (sunAngleArg M jd lat ang time) = true in
     let horizon := riseSetAngle M (default (lit 0) (altitude coords)) in
     let asrAngle :=
       - arccot M (AsrJuristic.factor (RequiredMethod.asr method)
                   + tan M (Math_abs (lat - fst (sunPosition M (jd + lit 13 / lit 24))))) in
     let night := timeDiff (PrayerTimes.sunset t) (PrayerTimes.sunrise t) in
     ((noCrossing horizon (lit 6 / lit 24) -> PrayerTimes.sunrise t = nan) /\
      (noCrossing horizon (lit 18 / lit 24) -> PrayerTimes.sunset t = nan) /\
      (noCrossing asrAngle (lit 13 / lit 24) -> PrayerTimes.asr t = nan)) /\
     (PrayerManager.hightLatMethod this = None ->
      (noCrossing (RequiredMethod.fajr method) (lit 5 / lit 24) ->
       PrayerTimes.fajr t = nan) /\
      (type (RequiredMethod.imsak method) = angle ->
       noCrossing (value (RequiredMethod.imsak method)) (lit 5 / lit 24) ->
       PrayerTimes.imsak t = nan) /\
      (type (RequiredMethod.maghrib method) = angle ->
       noCrossing (value (RequiredMethod.maghrib method)) (lit 18 / lit 24) ->
       PrayerTimes.maghrib t = nan) /\
      (type (RequiredMethod.isha method) = angle ->
       noCrossing (value (RequiredMethod.isha method)) (lit 18 / lit 24) ->
       PrayerTimes.isha t = nan)) /\
     (forall hl : HightLatMethods.t,
        PrayerManager.hightLatMethod this = Some hl ->
        let portion (ang : float) := PrayerManager.nightPortion hl ang night in
        (noCrossing (RequiredMethod.fajr method) (lit 5 / lit 24) ->
         PrayerTimes.fajr t
         = PrayerTimes.sunrise t - portion (RequiredMethod.fajr method)) /\
        (type (RequiredMethod.imsak method) = angle ->
         noCrossing (value (RequiredMethod.imsak method)) (lit 5 / lit 24) ->
         PrayerTimes.imsak t
         = PrayerTimes.sunrise t - portion (value (RequiredMethod.imsak method))) /\
        (type (RequiredMethod.maghrib method) = angle ->
         noCrossing (value (RequiredMethod.maghrib method)) (lit 18 / lit 24) ->
         PrayerTimes.maghrib t
         = PrayerTimes.sunset t + portion (value (RequiredMethod.maghrib method))) /\
        (type (RequiredMethod.isha method) = angle ->
         noCrossing (value (RequiredMethod.isha method)) (lit 18 / lit 24) ->
         PrayerTimes.isha t
         = PrayerTimes.sunset t + portion (value (RequiredMethod.isha method))) /\
        (PrayerTimes.sunrise t = nan \/ PrayerTimes.sunset t = nan ->
         PrayerTimes.fajr t = nan /\
         (type (RequiredMethod.imsak method) = angle -> PrayerTimes.imsak t = nan) /\
         (type (RequiredMethod.maghrib method) = angle ->
          PrayerTimes.maghrib t = nan) /\
         (type (RequiredMethod.isha method) = angle -> PrayerTimes.isha t = nan))) /\
     ((PrayerTimes.fajr t = nan ->
       (type (RequiredMethod.imsak method) = minute -> PrayerTimes.imsak t = nan) /\
       (RequiredMethod.midnight method = MidnightMethod.Jafari ->
        PrayerTimes.midnight t = nan)) /\
      (PrayerTimes.sunrise t = nan ->
       RequiredMethod.midnight method = MidnightMethod.Standard ->
       PrayerTimes.midnight t = nan) /\
      (PrayerTimes.sunset t = nan ->
       PrayerTimes.midnight t = nan /\
       (type (RequiredMethod.maghrib method) = minute ->
        PrayerTimes.maghrib t = nan)) /\
      (PrayerTimes.maghrib t = nan ->
       type (RequiredMethod.isha method) = minute -> PrayerTimes.isha t = nan))).
Proof.
  split; [intros; now apply sunAngleTime_NaN|].
  intros this date coords. cbv zeta.
  destruct (getTimes_unfold M this date coords)
    as (Hrise & Hset & _ & Hasr & Hfajr & Himsak & Hmaghrib & Hisha & Hmid).
  split_and!.
  - intros H. rewrite Hrise. now apply rawTime_NaN.
  - intros H. rewrite Hset. now apply rawTime_NaN.
  - intros H. rewrite Hasr. unfold asrTime.
    rewrite (sunAngleTime_NaN M HM _ _ _ _ _ H). apply sub_nan_l.
  - intros Hhl. rewrite Hhl in Hfajr, Himsak, Hmaghrib, Hisha.
    rewrite clamp_None in *. split_and!.
    + intros H. rewrite Hfajr. now apply rawTime_NaN.
    + intros Hty H. rewrite Himsak, Hty. now apply rawTime_NaN.
    + intros Hty H. rewrite Hmaghrib, Hty. now apply rawTime_NaN.
    + intros Hty H. rewrite Hisha, Hty. now apply rawTime_NaN.
  - intros hl Hhl. rewrite Hhl in Hfajr, Himsak, Hmaghrib, Hisha.
    rewrite clamp_Some in *. split_and!.
    + intros H. rewrite Hfajr, (rawTime_NaN M HM _ _ _ _ _ H).
      apply adjustHighlatTime_NaN.
    + intros Hty H. rewrite Himsak, Hty, (rawTime_NaN M HM _ _ _ _ _ H).
      apply adjustHighlatTime_NaN.
    + intros Hty H. rewrite Hmaghrib, Hty, (rawTime_NaN M HM _ _ _ _ _ H).
      apply adjustHighlatTime_NaN.
    + intros Hty H. rewrite Hisha, Hty, (rawTime_NaN M HM _ _ _ _ _ H).
      apply adjustHighlatTime_NaN.
    + intros Hnan.
      assert (Hnight : timeDiff (PrayerTimes.sunset (PrayerManager.getTimes M this date coords))
                         (PrayerTimes.sunrise (PrayerManager.getTimes M this date coords))
                       = nan).
      { destruct Hnan as [H|H]; rewrite H;
          [apply timeDiff_nan_r | apply timeDiff_nan_l]. }
      split_and!.
      * rewrite Hfajr. apply adjustHighlatTime_NaN_portion.
        rewrite Hnight. apply nightPortion_NaN.
      * intros Hty. rewrite Himsak, Hty. apply adjustHighlatTime_NaN_portion.
        rewrite Hnight. apply nightPortion_NaN.
      * intros Hty. rewrite Hmaghrib, Hty. apply adjustHighlatTime_NaN_portion.
        rewrite Hnight. apply nightPortion_NaN.
      * intros Hty. rewrite Hisha, Hty. apply adjustHighlatTime_NaN_portion.
        rewrite Hnight. apply nightPortion_NaN.
  - intros H. split.
    + intros Hty. rewrite Himsak, Hty, H. apply sub_nan_l.
    + intros Hm. rewrite Hmid, Hm, H, timeDiff_nan_r. cbn [nadd ndiv ieee].
      now rewrite div_nan_l, add_nan_r.
  - intros H Hm. rewrite Hmid, Hm, H, timeDiff_nan_r. cbn [nadd ndiv ieee].
    now rewrite div_nan_l, add_nan_r.
  - intros H. split.
    + rewrite Hmid, H. apply add_nan_l.
    + intros Hty. rewrite Hmaghrib, Hty, H. apply sub_nan_l.
  - intros H Hty. rewrite Hisha, Hty, H. apply sub_nan_l.
Qed.

(** C2 (amended). With a high-latitude method configured, the returned
    fajr is a number (not NaN) whenever the returned sunrise is finite and
    the night portion of the fajr angle is a number; an angle-typed isha is
    a number whenever the returned sunset is finite and the night portion of
    the isha angle is a number; a minute-typed isha is a number whenever the
    returned maghrib is one and the isha value divided by 60 is finite. A
    fajr (an angle-typed isha) whose own crossing does not exist is returned
    as sunrise minus the portion (sunset plus the portion). When the night
    portion is NaN, and in particular whenever the returned sunrise or
    sunset is NaN, the returned fajr and an angle-typed isha are NaN. *)
Theorem highlat_not_NaN (this : PrayerManager.t ieee) (date : Date)
    (coords : Coordinates ieee) (hl : HightLatMethods.t) :
  PrayerManager.hightLatMethod this = Some hl ->
  let method := PrayerManager.method this in
  let t := PrayerManager.getTimes M this date coords in
  let night := timeDiff (PrayerTimes.sunset t) (PrayerTimes.sunrise t) in
  let portion (ang : float) := PrayerManager.nightPortion hl ang night in
  let raw := PrayerManager.rawTime M date coords in
  (isFinite (PrayerTimes.sunrise t) = true ->
   isNaN (portion (RequiredMethod.fajr method)) = false ->
   isNaN (PrayerTimes.fajr t) = false) /\
  (type (RequiredMethod.isha method) = angle ->
   isFinite (PrayerTimes.sunset t) = true ->
   isNaN (portion (value (RequiredMethod.isha method))) = false ->
   isNaN (PrayerTimes.isha t) = false) /\
  (type (RequiredMethod.isha method) = minute ->
   isNaN (PrayerTimes.maghrib t) = false ->
   isFinite (value (RequiredMethod.isha method) / lit 60) = true ->
   isNaN (PrayerTimes.isha t) = false) /\
  (isNaN (raw (RequiredMethod.fajr method) (lit 5 / lit 24) true) = true ->
   PrayerTimes.fajr t
   = PrayerTimes.sunrise t - portion (RequiredMethod.fajr method)) /\
  (type (RequiredMethod.isha method) = angle ->
   isNaN (raw (value (RequiredMethod.isha method)) (lit 18 / lit 24) false) = true ->
   PrayerTimes.isha t
   = PrayerTimes.sunset t + portion (value (RequiredMethod.isha method))) /\
  (isNaN (portion (RequiredMethod.fajr method)) = true ->
   PrayerTimes.fajr t = nan) /\
  (type (RequiredMethod.isha method) = angle ->
   isNaN (portion (value (RequiredMethod.isha method))) = true ->
   PrayerTimes.isha t = nan) /\
  (isNaN (PrayerTimes.sunrise t) = true \/ isNaN (PrayerTimes.sunset t) = true ->
   PrayerTimes.fajr t = nan /\
   (type (RequiredMethod.isha method) = angle -> PrayerTimes.isha t = nan)).
Proof.
  intros Hhl. cbv zeta.
  destruct (getTimes_unfold M this date coords)
    as (_ & _ & _ & _ & Hfajr & _ & _ & Hisha & _).
  rewrite Hhl, clamp_Some in Hfajr, Hisha.
  split_and!.
  - intros Hs Hp. rewrite Hfajr. now apply adjustHighlatTime_not_NaN.
  - intros Hty Hs Hp. rewrite Hisha, Hty. now apply adjustHighlatTime_not_NaN.
  - intros Hty Hm Hv. rewrite Hisha, Hty. now apply sub_not_NaN.
  - intros Hn. rewrite Hfajr, (isNaN_true _ Hn).
    apply adjustHighlatTime_NaN.
  - intros Hty Hn. rewrite Hisha, Hty, (isNaN_true _ Hn).
    apply adjustHighlatTime_NaN.
  - intros Hp. rewrite Hfajr.
    apply adjustHighlatTime_NaN_portion, isNaN_true, Hp.
  - intros Hty Hp. rewrite Hisha, Hty.
    apply adjustHighlatTime_NaN_portion, isNaN_true, Hp.
  - intros Hnan.
    assert (Hnight : timeDiff (PrayerTimes.sunset (PrayerManager.getTimes M this date coords))
                       (PrayerTimes.sunrise (PrayerManager.getTimes M this date coords))
                     = nan).
    { destruct Hnan as [H|H]; apply isNaN_true in H; rewrite H;
        [apply timeDiff_nan_r | apply timeDiff_nan_l]. }
    split.
    + rewrite Hfajr. apply adjustHighlatTime_NaN_portion.
      rewrite Hnight. apply nightPortion_NaN.
    + intros Hty. rewrite Hisha, Hty. apply adjustHighlatTime_NaN_portion.
      rewrite Hnight. apply nightPortion_NaN.
Qed.
End IEEEClaims.

(** C3, on doubles: Helsinki on 21 June, preset MWL, no high-latitude
    method. The sun does not reach 18 degrees below the horizon, and fajr is
    NaN. *)
Lemma fajr_NaN_in_white_nights :
  PrayerTimes.fajr
    (PrayerManager.getTimes refMath (PrayerManager.new MWL_preset None)
       date_2021_06_21 helsinki) = nan.
Proof.
  destruct (NaN_propagates refMath refMath_ECMAScript) as [_ H].
  destruct (H (PrayerManager.new MWL_preset None) date_2021_06_21 helsinki)
    as (_ & Hnone & _).
  destruct (Hnone eq_refl) as (Hfajr & _).
  apply Hfajr. vm_compute. reflexivity.
Defined.

(** C3 as stated fails. Same place and day with the NightMiddle method: the
    argument of arccos for fajr is outside [[-1, 1]] and the solver's value
    is NaN, but the returned fajr is sunrise minus half the night, a finite
    number; the NaN of isha is replaced likewise. *)
Lemma NaN_replaced_by_high_latitude_method :
  let this := PrayerManager.new MWL_preset (Some HightLatMethods.NightMiddle) in
  let t := PrayerManager.getTimes refMath this date_2021_06_21 helsinki in
  outsideUnit (sunAngleArg refMath (PrayerManager.julianDay date_2021_06_21 helsinki)
                 (latitude helsinki) (RequiredMethod.fajr (PrayerManager.method this))
                 (lit 5 / lit 24)%num) = true /\
  isNaN (PrayerManager.rawTime refMath date_2021_06_21 helsinki
           (RequiredMethod.fajr (PrayerManager.method this)) (lit 5 / lit 24)%num true)
  = true /\
  isFinite (PrayerTimes.fajr t) = true /\
  isFinite (PrayerTimes.isha t) = true.
Proof. vm_compute. repeat split. Qed.

(** C2, on doubles: Helsinki on 21 June with the NightMiddle method; sunrise
    is finite and the returned fajr is a number. *)
Lemma fajr_number_in_white_nights :
  isNaN (PrayerTimes.fajr
           (PrayerManager.getTimes refMath
              (PrayerManager.new MWL_preset (Some HightLatMethods.NightMiddle))
              date_2021_06_21 helsinki)) = false.
Proof.
  refine (proj1 (highlat_not_NaN refMath
                   (PrayerManager.new MWL_preset (Some HightLatMethods.NightMiddle))
                   date_2021_06_21 helsinki HightLatMethods.NightMiddle eq_refl) _ _);
    vm_compute; reflexivity.
Defined.

(** C2 as stated fails. Longyearbyen on 21 December: the sun does not
    rise, sunrise and sunset are NaN. The crossings of fajr and isha exist
    (without a method both are finite), but with the NightMiddle method the
    returned fajr and isha are NaN. *)
Lemma fajr_isha_NaN_in_polar_night :
  let t := PrayerManager.getTimes refMath
             (PrayerManager.new MWL_preset (Some HightLatMethods.NightMiddle))
             date_2021_12_21 longyearbyen in
  let t0 := PrayerManager.getTimes refMath (PrayerManager.new MWL_preset None)
              date_2021_12_21 longyearbyen in
  isNaN (PrayerTimes.sunrise t) = true /\
  isNaN (PrayerTimes.fajr t) = true /\
  isNaN (PrayerTimes.isha t) = true /\
  isFinite (PrayerTimes.fajr t0) = true /\
  isFinite (PrayerTimes.isha t0) = true.
Proof. vm_compute. repeat split. Qed.

(** The regression scenario of [src/__tests__/prayer.test.ts], with the
    reference [Math]: every field within 1e-9 of the expected value. *)
Example regression_scenario :
  let t := PrayerManager.getTimes refMath (PrayerManager.new MWL_preset None)
             date_2021_04_12 aHouse in
  close (PrayerTimes.imsak t) 8.860089038173626 = true /\
  close (PrayerTimes.fajr t) 9.026755704840292 = true /\
  close (PrayerTimes.sunrise t) 10.581941026910075 = true /\
  close (PrayerTimes.dhuhr t) 17.14708096904308 = true /\
  close (PrayerTimes.asr t) 20.831494870257075 = true /\
  close (PrayerTimes.sunset t) 23.72239613166242 = true /\
  close (PrayerTimes.maghrib t) 23.72239613166242 = true /\
  close (PrayerTimes.isha t) 25.1845331305664 = true /\
  close (PrayerTimes.midnight t) 29.152168579286247 = true.
Proof. vm_compute. repeat split. Qed.


(** ** Further properties of the program *)

Section ExtraExact.
Local Open Scope Q_scope.

(** In exact arithmetic [timeDiff] lies in [[0, 24)] and [timeDiff t t] is
    0. *)
Theorem timeDiff_exact (t1 t2 : Q) :
  (0 <= timeDiff (N:=exact) t1 t2 /\ timeDiff (N:=exact) t1 t2 < 24) /\
  timeDiff (N:=exact) t1 t1 == 0.
Proof.
  unfold timeDiff, fixHour. cbn [nsub lit exact]. split.
  - apply fix_exact_range. reflexivity.
  - rewrite fix_exact_floor by reflexivity.
    assert (E : (t1 - t1) / 24 == 0) by (field).
    rewrite (Qfloor_comp _ _ E). change (inject_Z (Qfloor 0)) with 0. ring.
Qed.
End ExtraExact.

Section ExtraIEEE.
Local Open Scope float_scope.

(** A finite double minus itself is +0. *)
Lemma sub_self (t : float) : isFinite t = true -> t - t = 0.
Proof.
  unfold isFinite. intros H. apply Prim2SF_inj. rewrite sub_spec.
  destruct (Prim2SF t) as [s|s| |s m e]; try discriminate.
  - destruct s; reflexivity.
  - unfold SF64sub, SFsub.
    match goal with |- binary_normalize _ _ ?z _ _ = _ =>
      assert (Hz : z = 0%Z) by lia; rewrite Hz end.
    reflexivity.
Qed.

(** On doubles, [timeDiff t t] is 0 for every finite [t]. *)
Theorem timeDiff_self_ieee (t : float) :
  isFinite t = true -> timeDiff (N:=ieee) t t = 0.
Proof.
  intros H. unfold timeDiff. cbn [nsub ieee]. rewrite (sub_self t H). reflexivity.
Qed.

Lemma timeDiff_self_noon : timeDiff (N:=ieee) 12.5 12.5 = 0.
Proof. apply (timeDiff_self_ieee 12.5). reflexivity. Defined.

(** On doubles, when the difference [t2 - t1] is finite, [timeDiff t1 t2]
    is a finite number of hours in [[0, 24]]. *)
Theorem timeDiff_ieee_range (t1 t2 : float) :
  isFinite (t2 - t1) = true ->
  isFinite (timeDiff (N:=ieee) t1 t2) = true /\
  (0 <=? timeDiff (N:=ieee) t1 t2) = true /\
  (timeDiff (N:=ieee) t1 t2 <=? 24) = true.
Proof.
  intros H. unfold timeDiff, fixHour. cbn [nsub ieee].
  destruct (fix_ieee_range (t2 - t1) (lit (Number:=ieee) 24) H)
    as (H1 & H2 & H3 & _); [reflexivity | reflexivity |].
  split; [exact H1 | split; [exact H2 | exact H3]].
Qed.

Lemma timeDiff_dusk_to_dawn :
  isFinite (timeDiff (N:=ieee) 19.25 5.5) = true /\
  (0 <=? timeDiff (N:=ieee) 19.25 5.5) = true /\
  (timeDiff (N:=ieee) 19.25 5.5 <=? 24) = true.
Proof. apply (timeDiff_ieee_range 19.25 5.5). reflexivity. Defined.
End ExtraIEEE.

Section ExtraGeneric.
Context {N : Number} (M : MathLib N).
Local Open Scope num_scope.

(** The defaults of [createCalculationMethod]: imsak [{minute, 10}], dhuhr
    0, asr Standard, maghrib [{minute, 0}], midnight Standard; fajr and
    isha pass through. *)
Theorem createCalculationMethod_defaults (fajr : number) (isha : CalculationType N) :
  createCalculationMethod (preset fajr isha)
  = RequiredMethod.mk {| type := minute; value := lit 10 |} fajr (lit 0)
      AsrJuristic.Standard {| type := minute; value := lit 0 |} isha
      MidnightMethod.Standard.
Proof. reflexivity. Qed.

(** The high-latitude method does not touch sunrise, dhuhr, asr and
    sunset, nor the standard midnight. *)
Theorem high_latitude_frame (m : RequiredMethod.t N) (hl : option HightLatMethods.t)
    (date : Date) (coords : Coordinates N) :
  let t := PrayerManager.getTimes M (PrayerManager.mk m hl) date coords in
  let t0 := PrayerManager.getTimes M (PrayerManager.mk m None) date coords in
  PrayerTimes.sunrise t = PrayerTimes.sunrise t0 /\
  PrayerTimes.dhuhr t = PrayerTimes.dhuhr t0 /\
  PrayerTimes.asr t = PrayerTimes.asr t0 /\
  PrayerTimes.sunset t = PrayerTimes.sunset t0 /\
  (RequiredMethod.midnight m = MidnightMethod.Standard ->
   PrayerTimes.midnight t = PrayerTimes.midnight t0).
Proof.
  cbv zeta. unfold PrayerManager.getTimes.
  cbn [PrayerManager.method PrayerManager.hightLatMethod].
  destruct hl; cbn [PrayerTimes.sunrise PrayerTimes.dhuhr PrayerTimes.asr
                    PrayerTimes.sunset PrayerTimes.midnight];
    split_and!; try reflexivity; intros ->; reflexivity.
Qed.

(** Midnight is sunset plus half the forward difference from sunset to
    sunrise (standard) or to the returned fajr (Jafari). *)
Theorem midnight_midpoint (this : PrayerManager.t N) (date : Date)
    (coords : Coordinates N) :
  let t := PrayerManager.getTimes M this date coords in
  PrayerTimes.midnight t
  = PrayerTimes.sunset t
    + match RequiredMethod.midnight (PrayerManager.method this) with
      | MidnightMethod.Standard =>
          timeDiff (PrayerTimes.sunset t) (PrayerTimes.sunrise t)
      | MidnightMethod.Jafari =>
          timeDiff (PrayerTimes.sunset t) (PrayerTimes.fajr t)
      end / lit 2.
Proof.
  cbv zeta. destruct (getTimes_unfold M this date coords) as (_&_&_&_&_&_&_&_&H).
  exact H.
Qed.
End ExtraGeneric.

Section BelowSeaLevel.
Context (M : MathLib ieee).
Local Open Scope float_scope.

(** Below sea level the ratio handed to [arccos] in [riseSetAngle] exceeds
    1 and the angle is NaN. *)
Theorem riseSetAngle_below_sea_level (HM : ECMAScriptMath M) (elevation : float) :
  (1 <? EARTH_RADIUS (N:=ieee) / (EARTH_RADIUS (N:=ieee) + elevation)) = true ->
  riseSetAngle M elevation = nan.
Proof.
  intros H. unfold riseSetAngle. cbn [nadd ndiv ieee].
  rewrite (arccos_outside M HM).
  - apply add_nan_r.
  - unfold outsideUnit. rewrite H. apply orb_true_r.
Qed.
End BelowSeaLevel.

Lemma riseSetAngle_dead_sea : riseSetAngle refMath (-430)%float = nan.
Proof.
  apply (riseSetAngle_below_sea_level refMath refMath_ECMAScript (-430)%float).
  vm_compute. reflexivity.
Defined.

(** At the Dead Sea, with the preset MWL, sunrise, sunset, maghrib and
    midnight are NaN on a day on which the sun rises and sets. *)
Example dead_sea_scenario :
  let t := PrayerManager.getTimes refMath (PrayerManager.new MWL_preset None)
             date_2021_04_12 deadSea in
  isNaN (PrayerTimes.sunrise t) = true /\
  isNaN (PrayerTimes.sunset t) = true /\
  isNaN (PrayerTimes.maghrib t) = true /\
  isNaN (PrayerTimes.midnight t) = true /\
  isFinite (PrayerTimes.fajr t) = true /\
  isFinite (PrayerTimes.dhuhr t) = true.
Proof. vm_compute. repeat split. Qed.

(** ** Hours modulo 24, in exact arithmetic *)

Section ExactHours.
Local Open Scope Q_scope.


(** [fix] leaves a value of [[0, m)] alone. *)
Lemma fix_exact_small (x m : Q) : 0 <= x -> x < m -> fix_ (N:=exact) x m == x.
Proof.
  intros H0 Hm. assert (Hpos : 0 < m) by lra.
  rewrite fix_exact_floor by assumption.
  assert (Hq0 : 0 <= x / m) by (apply Qle_shift_div_l; lra).
  assert (Hq1 : x / m < 1) by (apply Qlt_shift_div_r; lra).
  pose proof (Qfloor_le (x / m)) as H1. pose proof (Qlt_floor (x / m)) as H2.
  assert (Hk : Qfloor (x / m) = 0%Z).
  { assert (A : inject_Z (Qfloor (x / m)) < inject_Z 1)
      by (change (inject_Z 1) with 1; lra).
    assert (B : inject_Z (-1) < inject_Z (Qfloor (x / m))).
    { rewrite inject_Z_plus in H2. change (inject_Z 1) with 1 in H2.
      change (inject_Z (-1)) with (-1). lra. }
    rewrite <- Zlt_Qlt in A. rewrite <- Zlt_Qlt in B. lia. }
  rewrite Hk. change (inject_Z 0) with 0. ring.
Qed.

Lemma fix_exact_idem (x m : Q) :
  0 < m -> fix_ (N:=exact) (fix_ (N:=exact) x m) m == fix_ (N:=exact) x m.
Proof.
  intros Hm. destruct (fix_exact_range x m Hm). now apply fix_exact_small.
Qed.



End ExactHours.

(** ** [fix] applied twice, and its NaN results *)

Section FixTwice.
Local Open Scope Z_scope.

(** A valid double has one representation. *)
Lemma bounded_unique (m1 m2 : positive) (e1 e2 : Z) :
  bounded prec emax m1 e1 = true -> bounded prec emax m2 e2 = true ->
  Zpos m1 * 2 ^ (e1 + 1074) = Zpos m2 * 2 ^ (e2 + 1074) ->
  m1 = m2 /\ e1 = e2.
Proof.
  intros H1 H2 Hv.
  pose proof (bounded_le_finite m1 m2 e1 e2 H1 H2 ltac:(lia)) as A.
  pose proof (bounded_le_finite m2 m1 e2 e1 H2 H1 ltac:(lia)) as B.
  unfold le_finite in A, B. split; lia.
Qed.

(** The order of the representations is the order of the values. *)
Lemma le_finite_value (m1 m2 : positive) (e1 e2 : Z) :
  bounded prec emax m1 e1 = true -> bounded prec emax m2 e2 = true ->
  le_finite m1 e1 m2 e2 -> (m1, e1) <> (m2, e2) ->
  Zpos m1 * 2 ^ (e1 + 1074) < Zpos m2 * 2 ^ (e2 + 1074).
Proof.
  intros H1 H2 Hle Hne.
  destruct (Z.lt_ge_cases (Zpos m1 * 2 ^ (e1 + 1074)) (Zpos m2 * 2 ^ (e2 + 1074)))
    as [Hlt|Hge]; [assumption|exfalso].
  pose proof (bounded_le_finite m2 m1 e2 e1 H2 H1 Hge) as B.
  unfold le_finite in Hle, B. apply Hne. f_equal; lia.
Qed.

Lemma SFleb_inv (m1 m2 : positive) (e1 e2 : Z) :
  SFleb (S754_finite false m1 e1) (S754_finite false m2 e2) = true ->
  le_finite m1 e1 m2 e2.
Proof.
  unfold le_finite, SFleb, SFcompare.
  destruct (Z.compare_spec e1 e2) as [He|He|He]; intros H.
  - right. split; [assumption|].
    change (Pos.compare_cont Eq m1 m2) with (Pos.compare m1 m2) in H.
    destruct (Pos.compare_spec m1 m2); try discriminate; lia.
  - left. assumption.
  - discriminate.
Qed.

(** The remainder of a positive double by a larger one is the double. *)
Lemma fmod_small (a b : float) (sb : bool) (ma mb : positive) (ea eb : Z) :
  Prim2SF a = S754_finite false ma ea -> Prim2SF b = S754_finite sb mb eb ->
  Zpos ma * 2 ^ (ea + 1074) < Zpos mb * 2 ^ (eb + 1074) ->
  fmod a b = a.
Proof.
  intros Ha Hb Hlt.
  pose proof (Prim2SF_valid a) as Va. rewrite Ha in Va.
  cbn [valid_binary SpecFloat.valid_binary] in Va.
  pose proof (Prim2SF_valid b) as Vb. rewrite Hb in Vb.
  cbn [valid_binary SpecFloat.valid_binary] in Vb.
  destruct (bounded_lt_2_53 ma ea Va) as [Hma Hea].
  destruct (bounded_lt_2_53 mb eb Vb) as [Hmb Heb].
  assert (Hee : ea <= eb).
  { pose proof (bounded_le_finite ma mb ea eb Va Vb ltac:(lia)) as L.
    unfold le_finite in L. lia. }
  unfold fmod. rewrite Ha, Hb.
  rewrite Z.min_l, Z.sub_diag, Z.pow_0_r, Z.mul_1_r by assumption.
  assert (PB : 0 < 2 ^ (eb - ea)) by (apply Z.pow_pos_nonneg; lia).
  assert (Pa : 0 < 2 ^ (ea + 1074)) by (apply Z.pow_pos_nonneg; lia).
  assert (HAB : Zpos ma < Zpos mb * 2 ^ (eb - ea)).
  { apply Z.mul_lt_mono_pos_r with (p := 2 ^ (ea + 1074)); [assumption|].
    replace (Zpos mb * 2 ^ (eb - ea) * 2 ^ (ea + 1074))
      with (Zpos mb * 2 ^ (eb + 1074)); [assumption|].
    rewrite <- Z.mul_assoc, <- Z.pow_add_r by lia. do 2 f_equal. lia. }
  rewrite Z.rem_small by lia. cbn [binary_normalize].
  destruct (binary_round_exact false ma ea ltac:(lia) (digits_le_53 ma Hma))
    as (m & e & HR & Hbd & Hv).
  { rewrite fexp_eq. pose proof (digits_le_53 ma Hma). lia. }
  destruct (bounded_unique m ma e ea Hbd Va Hv) as [-> ->].
  rewrite HR, <- Ha. apply SF2Prim_Prim2SF.
Qed.
End FixTwice.

Section FixTwiceIEEE.
Local Open Scope float_scope.

(** On doubles, applying [fix] twice is applying it once, except when the
    first result is the modulus itself: then the second is 0. *)
Lemma fix_ieee_twice (x m : float) :
  isFinite x = true -> isFinite m = true -> (0 <? m) = true ->
  fix_ (N:=ieee) (fix_ (N:=ieee) x m) m = fix_ (N:=ieee) x m \/
  (fix_ (N:=ieee) x m = m /\ fix_ (N:=ieee) (fix_ (N:=ieee) x m) m = 0).
Proof.
  intros Hx Hm Hpos.
  destruct (fix_ieee_range x m Hx Hm Hpos) as (Hf & H0 & Hle & _).
  destruct (positive_finite m Hm Hpos) as (mb & eb & Em).
  pose proof (Prim2SF_valid m) as Vm. rewrite Em in Vm.
  cbn [valid_binary SpecFloat.valid_binary] in Vm.
  set (y := fix_ (N:=ieee) x m) in *.
  pose proof (Prim2SF_valid y) as Vy.
  unfold isFinite in Hf. rewrite leb_spec in H0, Hle. rewrite Em in Hle.
  change (Prim2SF 0) with (S754_zero false) in H0.
  destruct (Prim2SF y) as [sy|sy| |sy my ey] eqn:Ey; try discriminate.
  - (* the first result is a zero *)
    left. unfold fix_ at 1. cbn [nrem nltb nadd lit ieee].
    assert (E : fmod y m = y) by (unfold fmod; rewrite Ey, Em; reflexivity).
    rewrite E. change (Q2float 0) with 0. rewrite ltb_spec, Ey. reflexivity.
  - destruct sy; [discriminate|].
    cbn [valid_binary SpecFloat.valid_binary] in Vy.
    pose proof (SFleb_inv my mb ey eb Hle) as L.
    destruct (decide ((my, ey) = (mb, eb))) as [Heq|Hne].
    + (* the first result is the modulus *)
      right. injection Heq as -> ->.
      assert (Eym : y = m) by (apply Prim2SF_inj; rewrite Ey, Em; reflexivity).
      split; [exact Eym|]. rewrite Eym. unfold fix_.
      cbn [nrem nltb nadd lit ieee].
      assert (E : fmod m m = 0).
      { unfold fmod. rewrite Em. rewrite Z.rem_same.
        - reflexivity.
        - assert (0 < 2 ^ (eb - Z.min eb eb))%Z by (apply Z.pow_pos_nonneg; lia).
          lia. }
      rewrite E. reflexivity.
    + left. unfold fix_ at 1. cbn [nrem nltb nadd lit ieee].
      rewrite (fmod_small y m false my mb ey eb Ey Em
                 (le_finite_value my mb ey eb Vy Vm L Hne)).
      change (Q2float 0) with 0. rewrite ltb_spec, Ey. reflexivity.
Qed.

End FixTwiceIEEE.

(** In exact arithmetic [fix] applied twice is [fix] applied once. On
    doubles it is too, except when the first result is the modulus itself
    (a negative remainder too small to change the modulus): then the second
    result is 0. *)
Theorem fix_twice :
  (forall x m : Q,
     (0 < m)%Q ->
     (fix_ (N:=exact) (fix_ (N:=exact) x m) m == fix_ (N:=exact) x m)%Q) /\
  (forall x m : float,
     isFinite x = true -> isFinite m = true -> (0 <? m)%float = true ->
     fix_ (N:=ieee) (fix_ (N:=ieee) x m) m = fix_ (N:=ieee) x m \/
     (fix_ (N:=ieee) x m = m /\
      fix_ (N:=ieee) (fix_ (N:=ieee) x m) m = 0%float)).
Proof.
  split.
  - intros x m Hm. apply fix_exact_idem, Hm.
  - intros x m Hx Hm Hpos. apply fix_ieee_twice; assumption.
Qed.

(** [fix] twice on the hour -1e-20, whose first result is 24. *)
Lemma fix_twice_before_midnight :
  fix_ (N:=ieee) (fix_ (N:=ieee) (-1e-20)%float 24%float) 24%float
  = fix_ (N:=ieee) (-1e-20)%float 24%float \/
  (fix_ (N:=ieee) (-1e-20)%float 24%float = 24%float /\
   fix_ (N:=ieee) (fix_ (N:=ieee) (-1e-20)%float 24%float) 24%float = 0%float).
Proof.
  destruct fix_twice as [_ H].
  apply (H (-1e-20)%float 24%float); reflexivity.
Defined.

Section MoreIEEE.
Local Open Scope float_scope.

(** Subtracting +0 changes nothing, not even the sign of a zero. *)
Lemma sub_zero (x : float) : x - 0 = x.
Proof.
  apply Prim2SF_inj. rewrite sub_spec. change (Prim2SF 0) with (S754_zero false).
  destruct (Prim2SF x) as [s|s| |s m e]; try reflexivity. destruct s; reflexivity.
Qed.

Lemma mul_not_NaN (a b : float) :
  isFinite a = true -> isFinite b = true -> isNaN (a * b) = false.
Proof.
  unfold isFinite, isNaN. rewrite mul_spec.
  destruct (Prim2SF a) as [sa|sa| |sa ma ea], (Prim2SF b) as [sb|sb| |sb mb eb];
    try discriminate; intros _ _; try reflexivity.
  unfold SF64mul, SFmul.
  destruct (binary_round_aux prec emax _ _ _ _) eqn:E; try reflexivity.
  exfalso. revert E. apply binary_round_aux_not_nan. lia.
Qed.

Lemma timeDiff_ieee_finite (t1 t2 : float) :
  isFinite (t2 - t1) = true -> isFinite (timeDiff (N:=ieee) t1 t2) = true.
Proof.
  intros H. unfold timeDiff, fixHour. cbn [nsub ieee].
  apply (fix_ieee_range (t2 - t1) (lit (Number:=ieee) 24) H); reflexivity.
Qed.

(** For a positive finite modulus, [fix] is NaN exactly when its argument
    is NaN or infinite; for the modulus 0 it is NaN. *)
Theorem fix_NaN_iff :
  (forall x m : float,
     isFinite m = true -> (0 <? m) = true ->
     isNaN (fix_ (N:=ieee) x m) = negb (isFinite x)) /\
  (forall x : float, fix_ (N:=ieee) x 0 = nan).
Proof.
  split.
  - intros x m Hm Hpos. destruct (isFinite x) eqn:Hx.
    + destruct (fix_ieee_range x m Hx Hm Hpos) as [H _].
      apply isFinite_not_NaN, H.
    + destruct (positive_finite m Hm Hpos) as (mb & eb & Em).
      assert (E : fmod x m = nan).
      { unfold fmod. rewrite Em. unfold isFinite in Hx.
        destruct (Prim2SF x); try discriminate; reflexivity. }
      unfold fix_. cbn [nrem nltb nadd lit ieee]. rewrite E. reflexivity.
  - intros x. assert (E : fmod x 0 = nan).
    { unfold fmod. change (Prim2SF 0) with (S754_zero false).
      destruct (Prim2SF x); reflexivity. }
    unfold fix_. cbn [nrem nltb nadd lit ieee]. rewrite E. reflexivity.
Qed.
End MoreIEEE.

(** ** The high-latitude adjustment *)

Section Clamp.
Context {N : Number}.
Local Open Scope num_scope.

(** Adjusting an adjusted time changes nothing, whatever the arithmetic. *)
Theorem adjustHighlatTime_idempotent (hl : HightLatMethods.t)
    (time base ang night : number) (ccw : bool) :
  let r := PrayerManager.adjustHighlatTime hl time base ang night ccw in
  PrayerManager.adjustHighlatTime hl r base ang night ccw = r.
Proof.
  cbv zeta. unfold PrayerManager.adjustHighlatTime.
  set (portion := PrayerManager.nightPortion hl ang night).
  destruct (nltb (if ccw then timeDiff time base else timeDiff base time) portion)
    eqn:E1.
  - rewrite ?E1. reflexivity.
  - match goal with |- (if ?c then _ else _) = _ => destruct c end; reflexivity.
Qed.
End Clamp.

Section ClampExact.
Local Open Scope Q_scope.


End ClampExact.

(** ** [getTimes] in exact arithmetic *)

Section MakkahPreset.
Context {N : Number}.

Lemma getCalculationMethod_Makkah (isRamadan : option bool) :
  getCalculationMethod (N:=N) "Makkah" isRamadan
  = Own (preset (lit 19.5)
           {| type := minute;
              value := if default false isRamadan then lit 120 else lit 90 |}).
Proof. destruct isRamadan as [[]|]; reflexivity. Qed.
End MakkahPreset.

Section GetTimesExact.
Context (M : MathLib exact).
Local Open Scope Q_scope.



Lemma midDay_exact_range (jd time : Q) :
  (-24 < snd (sunPosition M jd) /\ snd (sunPosition M jd) < 24) /\
  (0 <= midDay M jd time /\ midDay M jd time < 24).
Proof.
  split.
  - unfold sunPosition. cbn [snd]. unfold fixAngle, fixHour.
    cbn [nadd nsub nmul ndiv lit exact].
    match goal with |- context [fix_ ?a 360 / 15] =>
      destruct (fix_exact_range a 360 eq_refl) as [Hq0 Hq1];
      set (q := fix_ (N:=exact) a 360) in * end.
    match goal with |- context [fix_ ?a 24] =>
      destruct (fix_exact_range a 24 eq_refl) as [Hh0 Hh1];
      set (h := fix_ (N:=exact) a 24) in * end.
    assert (E : q / 15 == q * (1 # 15)) by (field).
    rewrite E. split; lra.
  - unfold midDay, fixHour. cbn [lit exact]. apply fix_exact_range. reflexivity.
Qed.



Lemma Makkah_isha_exact (isRamadan : option bool) (m : CalculationMethod.t exact)
    (hl : option HightLatMethods.t) (date : Date) (coords : Coordinates exact) :
  getCalculationMethod (N:=exact) "Makkah" isRamadan = Own m ->
  let t := PrayerManager.getTimes M (PrayerManager.new m hl) date coords in
  PrayerTimes.isha t < PrayerTimes.sunset t.
Proof.
  intros Hm. cbv zeta. rewrite getCalculationMethod_Makkah in Hm.
  injection Hm as <-.
  match goal with |- context [PrayerManager.getTimes M ?this date coords] =>
    destruct (getTimes_unfold M this date coords)
      as (_ & _ & _ & _ & _ & _ & Hmaghrib & Hisha & _);
    set (t := PrayerManager.getTimes M this date coords) in *
  end.
  cbn [PrayerManager.method PrayerManager.new createCalculationMethod preset
       RequiredMethod.maghrib RequiredMethod.isha CalculationMethod.maghrib
       CalculationMethod.isha default type value] in Hmaghrib, Hisha.
  rewrite Hisha, Hmaghrib. cbn [nsub ndiv lit exact].
  generalize (PrayerTimes.sunset t). intros s.
  change (0 / 60) with (0 # 60).
  destruct (default false isRamadan);
    [change (120 / 60) with (120 # 60) | change (90 / 60) with (90 # 60)]; lra.
Qed.
End GetTimesExact.


(** ** [getTimes] on doubles *)



Section GetTimesIEEE.
Local Existing Instance ieee.
Context (M : MathLib ieee).
Local Open Scope num_scope.

(** A method without maghrib: the returned maghrib is the returned sunset. *)
Lemma maghrib_default_ieee (m : CalculationMethod.t ieee)
    (hl : option HightLatMethods.t) (date : Date) (coords : Coordinates ieee) :
  CalculationMethod.maghrib m = None ->
  let t := PrayerManager.getTimes M (PrayerManager.new m hl) date coords in
  PrayerTimes.maghrib t = PrayerTimes.sunset t.
Proof.
  intros E. cbv zeta.
  destruct (getTimes_unfold M (PrayerManager.new m hl) date coords)
    as (_ & _ & _ & _ & _ & _ & Hmaghrib & _).
  cbn [PrayerManager.method PrayerManager.new createCalculationMethod
       RequiredMethod.maghrib] in Hmaghrib.
  rewrite E in Hmaghrib. cbn [default type value] in Hmaghrib.
  rewrite Hmaghrib. change (lit 0 / lit 60) with 0%float. apply sub_zero.
Qed.

(** The members a method leaves out, seen in the result: imsak is 10
    minutes before the returned fajr, maghrib is the returned sunset, and a
    minute-typed isha is counted back from that sunset. *)
Theorem defaults_in_getTimes (m : CalculationMethod.t ieee)
    (hl : option HightLatMethods.t) (date : Date) (coords : Coordinates ieee) :
  let t := PrayerManager.getTimes M (PrayerManager.new m hl) date coords in
  (CalculationMethod.imsak m = None ->
   PrayerTimes.imsak t = PrayerTimes.fajr t - lit 10 / lit 60) /\
  (CalculationMethod.maghrib m = None ->
   PrayerTimes.maghrib t = PrayerTimes.sunset t /\
   (type (CalculationMethod.isha m) = minute ->
    PrayerTimes.isha t
    = PrayerTimes.sunset t - value (CalculationMethod.isha m) / lit 60)).
Proof.
  cbv zeta.
  destruct (getTimes_unfold M (PrayerManager.new m hl) date coords)
    as (_ & _ & _ & _ & _ & Himsak & _ & Hisha & _).
  cbn [PrayerManager.method PrayerManager.new createCalculationMethod
       RequiredMethod.imsak RequiredMethod.isha] in Himsak, Hisha.
  split.
  - intros E. rewrite E in Himsak. exact Himsak.
  - intros E. pose proof (maghrib_default_ieee m hl date coords E) as Hm.
    cbv zeta in Hm. split; [exact Hm|].
    intros Hty. rewrite Hisha, Hty, Hm. reflexivity.
Qed.

Lemma Makkah_isha_ieee (isRamadan : option bool)
    (m : CalculationMethod.t ieee) (hl : option HightLatMethods.t)
    (date : Date) (coords : Coordinates ieee) :
  getCalculationMethod (N:=ieee) "Makkah" isRamadan = Own m ->
  let t := PrayerManager.getTimes M (PrayerManager.new m hl) date coords in
  PrayerTimes.isha t
  = PrayerTimes.sunset t - (if default false isRamadan then 2 else 1.5)%float.
Proof.
  intros Hm. cbv zeta. rewrite getCalculationMethod_Makkah in Hm.
  injection Hm as <-.
  match goal with |- context [PrayerManager.getTimes M (PrayerManager.new ?m hl) _ _] =>
    pose proof (maghrib_default_ieee m hl date coords eq_refl) as Hmag;
    destruct (getTimes_unfold M (PrayerManager.new m hl) date coords)
      as (_ & _ & _ & _ & _ & _ & _ & Hisha & _)
  end.
  cbv zeta in Hmag.
  cbn [PrayerManager.method PrayerManager.new createCalculationMethod preset
       RequiredMethod.isha CalculationMethod.isha type value] in Hisha.
  rewrite Hisha, Hmag. destruct (default false isRamadan); reflexivity.
Qed.

(** A NaN longitude makes every field NaN. *)
Theorem getTimes_NaN_longitude (this : PrayerManager.t ieee) (date : Date)
    (coords : Coordinates ieee) :
  longitude coords = nan ->
  let t := PrayerManager.getTimes M this date coords in
  PrayerTimes.imsak t = nan /\ PrayerTimes.fajr t = nan /\
  PrayerTimes.sunrise t = nan /\ PrayerTimes.dhuhr t = nan /\
  PrayerTimes.asr t = nan /\ PrayerTimes.sunset t = nan /\
  PrayerTimes.maghrib t = nan /\ PrayerTimes.isha t = nan /\
  PrayerTimes.midnight t = nan.
Proof.
  intros Hlon. cbv zeta.
  destruct (getTimes_unfold M this date coords)
    as (Hrise & Hset & Hdhuhr & Hasr & Hfajr & Himsak & Hmaghrib & Hisha & Hmid).
  assert (Hadj : PrayerManager.adjust coords = nan).
  { unfold PrayerManager.adjust. rewrite Hlon. apply div_nan_l. }
  assert (Hraw : forall a s c, PrayerManager.rawTime M date coords a s c = nan).
  { intros. unfold PrayerManager.rawTime. rewrite Hadj. apply sub_nan_r. }
  rewrite Hraw in Hrise, Hset.
  assert (Hclamp : forall base a n c,
             base = nan ->
             PrayerManager.clamp (PrayerManager.hightLatMethod this) nan base a n c = nan).
  { intros base a n c ->. destruct (PrayerManager.hightLatMethod this) as [hl|].
    - rewrite clamp_Some, adjustHighlatTime_NaN.
      destruct c; [apply sub_nan_l | apply add_nan_l].
    - apply clamp_None. }
  rewrite Hraw, (Hclamp _ _ _ _ Hrise) in Hfajr.
  assert (Hm : PrayerTimes.maghrib (PrayerManager.getTimes M this date coords) = nan).
  { rewrite Hmaghrib.
    destruct (type (RequiredMethod.maghrib (PrayerManager.method this))).
    - rewrite Hraw. apply Hclamp, Hset.
    - rewrite Hset. apply sub_nan_l. }
  split_and!.
  - rewrite Himsak.
    destruct (type (RequiredMethod.imsak (PrayerManager.method this))).
    + rewrite Hraw. apply Hclamp, Hrise.
    + rewrite Hfajr. apply sub_nan_l.
  - exact Hfajr.
  - exact Hrise.
  - rewrite Hdhuhr, Hadj. cbn [nadd nsub ieee]. now rewrite sub_nan_r, add_nan_l.
  - rewrite Hasr, Hadj. apply sub_nan_r.
  - exact Hset.
  - exact Hm.
  - rewrite Hisha.
    destruct (type (RequiredMethod.isha (PrayerManager.method this))).
    + rewrite Hraw. apply Hclamp, Hset.
    + rewrite Hm. apply sub_nan_l.
  - rewrite Hmid, Hset. apply add_nan_l.
Qed.

(** When the asr altitude is not crossed, asr is NaN, with or without a
    high-latitude method. *)
Theorem asr_NaN (HM : ECMAScriptMath M) (this : PrayerManager.t ieee)
    (date : Date) (coords : Coordinates ieee) :
  let t := PrayerManager.getTimes M this date coords in
  let jd := PrayerManager.julianDay date coords in
  let lat := latitude coords in
  let decl := fst (sunPosition M (jd + lit 13 / lit 24)) in
  let ang := - arccot M (AsrJuristic.factor
                           (RequiredMethod.asr (PrayerManager.method this))
                         + tan M (Math_abs (lat - decl))) in
  outsideUnit (sunAngleArg M jd lat ang (lit 13 / lit 24)) = true ->
  PrayerTimes.asr t = nan.
Proof.
  cbv zeta. intros H.
  destruct (getTimes_unfold M this date coords) as (_ & _ & _ & Hasr & _).
  rewrite Hasr. unfold asrTime. rewrite (sunAngleTime_NaN M HM _ _ _ _ _ H).
  apply sub_nan_l.
Qed.

(** With a high-latitude method, fajr and the angle-typed imsak, maghrib
    and isha are numbers as soon as sunrise, sunset and their difference
    are finite (and, for the angle-based method, the sixtieth of the angle
    is). *)
Theorem highlat_numbers (m : RequiredMethod.t ieee) (hl : HightLatMethods.t)
    (date : Date) (coords : Coordinates ieee) :
  let t := PrayerManager.getTimes M (PrayerManager.mk m (Some hl)) date coords in
  let usable (a : float) :=
    hl = HightLatMethods.AngleBased -> isFinite (lit 1 / lit 60 * a) = true in
  isFinite (PrayerTimes.sunrise t) = true ->
  isFinite (PrayerTimes.sunset t) = true ->
  isFinite (PrayerTimes.sunrise t - PrayerTimes.sunset t) = true ->
  (usable (RequiredMethod.fajr m) -> isNaN (PrayerTimes.fajr t) = false) /\
  (type (RequiredMethod.imsak m) = angle ->
   usable (value (RequiredMethod.imsak m)) -> isNaN (PrayerTimes.imsak t) = false) /\
  (type (RequiredMethod.maghrib m) = angle ->
   usable (value (RequiredMethod.maghrib m)) ->
   isNaN (PrayerTimes.maghrib t) = false) /\
  (type (RequiredMethod.isha m) = angle ->
   usable (value (RequiredMethod.isha m)) -> isNaN (PrayerTimes.isha t) = false).
Proof.
  cbv zeta. intros Hrise Hset Hdiff.
  destruct (getTimes_unfold M (PrayerManager.mk m (Some hl)) date coords)
    as (_ & _ & _ & _ & Hfajr & Himsak & Hmaghrib & Hisha & _).
  cbn [PrayerManager.method PrayerManager.hightLatMethod] in *.
  rewrite clamp_Some in Hfajr, Himsak, Hmaghrib, Hisha.
  set (t := PrayerManager.getTimes M _ date coords) in *.
  pose proof (timeDiff_ieee_finite _ _ Hdiff) as Hnight.
  set (night := timeDiff (PrayerTimes.sunset t) (PrayerTimes.sunrise t)) in *.
  assert (Hp : forall a : float,
             (hl = HightLatMethods.AngleBased -> isFinite (lit 1 / lit 60 * a) = true) ->
             isNaN (PrayerManager.nightPortion hl a night) = false).
  { intros a Ha. unfold PrayerManager.nightPortion. cbn [nmul ieee].
    apply mul_not_NaN; [|exact Hnight].
    destruct hl; [reflexivity | exact (Ha eq_refl) | reflexivity]. }
  split_and!.
  - intros Ha. rewrite Hfajr. apply adjustHighlatTime_not_NaN; auto.
  - intros Hty Ha. rewrite Himsak, Hty. apply adjustHighlatTime_not_NaN; auto.
  - intros Hty Ha. rewrite Hmaghrib, Hty. apply adjustHighlatTime_not_NaN; auto.
  - intros Hty Ha. rewrite Hisha, Hty. apply adjustHighlatTime_not_NaN; auto.
Qed.

Lemma midDay_ieee_range (jd time : float) :
  isFinite (lit 12 - snd (sunPosition M (jd + time))) = true ->
  isFinite (midDay M jd time) = true /\
  (0 <=? midDay M jd time)%float = true /\
  (midDay M jd time <=? 24)%float = true.
Proof.
  intros H. unfold midDay, fixHour.
  destruct (fix_ieee_range _ (lit (Number:=ieee) 24) H)
    as (H1 & H2 & H3 & _); [reflexivity | reflexivity |].
  split; [exact H1 | split; [exact H2 | exact H3]].
Qed.
End GetTimesIEEE.

(** In exact arithmetic the equation of time of [sunPosition] lies in
    [(-24, 24)] and [midDay] in [[0, 24)], for every [Math]. On doubles
    [midDay] is a finite number of [[0, 24]] whenever 12 minus the equation
    of time is finite. *)
Theorem midDay_range :
  (forall (M : MathLib exact) (jd time : Q),
     (-24 < snd (sunPosition M jd) /\ snd (sunPosition M jd) < 24)%Q /\
     (0 <= midDay M jd time /\ midDay M jd time < 24)%Q) /\
  (forall (M : MathLib ieee) (jd time : float),
     isFinite (12 - snd (sunPosition M (jd + time)))%float = true ->
     isFinite (midDay M jd time) = true /\
     (0 <=? midDay M jd time)%float = true /\
     (midDay M jd time <=? 24)%float = true).
Proof.
  split.
  - intros M jd time. apply midDay_exact_range.
  - intros M jd time. apply midDay_ieee_range.
Qed.

(** With the preset Makkah, isha is the sunset minus an hour and a half
    (two hours in Ramadan) on doubles, and before sunset in exact
    arithmetic. *)
Theorem Makkah_isha_before_sunset :
  (forall (M : MathLib ieee) (isRamadan : option bool)
     (m : CalculationMethod.t ieee) (hl : option HightLatMethods.t)
     (date : Date) (coords : Coordinates ieee),
     getCalculationMethod (N:=ieee) "Makkah" isRamadan = Own m ->
     let t := PrayerManager.getTimes M (PrayerManager.new m hl) date coords in
     PrayerTimes.isha t
     = (PrayerTimes.sunset t - (if default false isRamadan then 2 else 1.5))%float) /\
  (forall (M : MathLib exact) (isRamadan : option bool)
     (m : CalculationMethod.t exact) (hl : option HightLatMethods.t)
     (date : Date) (coords : Coordinates exact),
     getCalculationMethod (N:=exact) "Makkah" isRamadan = Own m ->
     let t := PrayerManager.getTimes M (PrayerManager.new m hl) date coords in
     (PrayerTimes.isha t < PrayerTimes.sunset t)%Q).
Proof.
  split.
  - intros M isRamadan m hl date coords. apply Makkah_isha_ieee.
  - intros M isRamadan m hl date coords. apply Makkah_isha_exact.
Qed.

(** A position without longitude, on the regression date. *)
Lemma getTimes_without_longitude :
  let t := PrayerManager.getTimes refMath (PrayerManager.new MWL_preset None)
             date_2021_04_12 noLongitude in
  PrayerTimes.imsak t = nan /\ PrayerTimes.fajr t = nan /\
  PrayerTimes.sunrise t = nan /\ PrayerTimes.dhuhr t = nan /\
  PrayerTimes.asr t = nan /\ PrayerTimes.sunset t = nan /\
  PrayerTimes.maghrib t = nan /\ PrayerTimes.isha t = nan /\
  PrayerTimes.midnight t = nan.
Proof.
  apply (getTimes_NaN_longitude refMath (PrayerManager.new MWL_preset None)
           date_2021_04_12 noLongitude).
  reflexivity.
Defined.

(** At 89 N on 21 June 2021 the sun does not come down to the altitude of
    asr. *)
Lemma asr_NaN_near_the_pole :
  PrayerTimes.asr
    (PrayerManager.getTimes refMath (PrayerManager.new MWL_preset None)
       date_2021_06_21 nearNorthPole) = nan.
Proof.
  apply (asr_NaN refMath refMath_ECMAScript (PrayerManager.new MWL_preset None)
           date_2021_06_21 nearNorthPole).
  vm_compute. reflexivity.
Defined.

(** Helsinki on 21 June 2021, with the middle of the night. *)
Lemma highlat_numbers_in_white_nights :
  let t := PrayerManager.getTimes refMath
             (PrayerManager.new MWL_preset (Some HightLatMethods.NightMiddle))
             date_2021_06_21 helsinki in
  isNaN (PrayerTimes.fajr t) = false /\ isNaN (PrayerTimes.isha t) = false.
Proof.
  destruct (highlat_numbers refMath (createCalculationMethod MWL_preset)
              HightLatMethods.NightMiddle date_2021_06_21 helsinki)
    as (Hfajr & _ & _ & Hisha);
    [vm_compute; reflexivity | vm_compute; reflexivity | vm_compute; reflexivity |].
  split.
  - apply Hfajr. discriminate.
  - apply Hisha; [reflexivity | discriminate].
Defined.

(** ** What the solar fields read *)

Section Dependencies.
Context {N : Number} (M : MathLib N).
Local Open Scope num_scope.

(** What each solar field of [getTimes] reads: sunrise and sunset do not
    read the method; dhuhr reads the longitude and the dhuhr offset only;
    asr does not read the altitude; and an altitude left out is the
    altitude 0. *)
Theorem getTimes_dependencies (this1 this2 : PrayerManager.t N) (date : Date)
    (c1 c2 : Coordinates N) :
  let t1 := PrayerManager.getTimes M this1 date c1 in
  let t2 := PrayerManager.getTimes M this2 date c2 in
  (latitude c1 = latitude c2 -> longitude c1 = longitude c2 ->
   default (lit 0) (altitude c1) = default (lit 0) (altitude c2) ->
   PrayerTimes.sunrise t1 = PrayerTimes.sunrise t2 /\
   PrayerTimes.sunset t1 = PrayerTimes.sunset t2 /\
   (this1 = this2 -> t1 = t2)) /\
  (longitude c1 = longitude c2 ->
   RequiredMethod.dhuhr (PrayerManager.method this1)
   = RequiredMethod.dhuhr (PrayerManager.method this2) ->
   PrayerTimes.dhuhr t1 = PrayerTimes.dhuhr t2) /\
  (latitude c1 = latitude c2 -> longitude c1 = longitude c2 ->
   RequiredMethod.asr (PrayerManager.method this1)
   = RequiredMethod.asr (PrayerManager.method this2) ->
   PrayerTimes.asr t1 = PrayerTimes.asr t2).
Proof.
  cbv zeta. split_and!.
  - intros Hlat Hlon Halt. split_and!.
    + destruct (getTimes_unfold M this1 date c1) as (H1 & _).
      destruct (getTimes_unfold M this2 date c2) as (H2 & _).
      rewrite H1, H2. unfold PrayerManager.rawTime, PrayerManager.julianDay,
        PrayerManager.adjust. rewrite Hlat, Hlon, Halt. reflexivity.
    + destruct (getTimes_unfold M this1 date c1) as (_ & H1 & _).
      destruct (getTimes_unfold M this2 date c2) as (_ & H2 & _).
      rewrite H1, H2. unfold PrayerManager.rawTime, PrayerManager.julianDay,
        PrayerManager.adjust. rewrite Hlat, Hlon, Halt. reflexivity.
    + intros ->. unfold PrayerManager.getTimes. rewrite Hlat, Hlon, Halt.
      reflexivity.
  - intros Hlon Hd.
    destruct (getTimes_unfold M this1 date c1) as (_ & _ & H1 & _).
    destruct (getTimes_unfold M this2 date c2) as (_ & _ & H2 & _).
    rewrite H1, H2. unfold PrayerManager.julianDay, PrayerManager.adjust.
    rewrite Hlon, Hd. reflexivity.
  - intros Hlat Hlon Ha.
    destruct (getTimes_unfold M this1 date c1) as (_ & _ & _ & H1 & _).
    destruct (getTimes_unfold M this2 date c2) as (_ & _ & _ & H2 & _).
    rewrite H1, H2. unfold PrayerManager.julianDay, PrayerManager.adjust.
    rewrite Hlat, Hlon, Ha. reflexivity.
Qed.
End Dependencies.

(** ** [getJulianDay] *)

Section JulianDay.
Local Open Scope Q_scope.

(** The value of [getJulianDay] with integer arithmetic inside the floor. *)
Lemma getJulianDay_exact (date : Date) :
  let m := (getMonth date + 1)%Z in
  let Y := if (m <? 3)%Z then (getFullYear date - 1)%Z else getFullYear date in
  let Mo := if (m <? 3)%Z then (m + 12)%Z else m in
  getJulianDay (N:=exact) date
  == inject_Z ((3652425 * Y + 306001 * Mo) / 10000 + getDate date) + 1721027.5.
Proof.
  cbv zeta. unfold getJulianDay. cbn [of_int lit nadd nsub nmul nltb Math_floor exact].
  destruct date as [y m d]. cbn [getFullYear getMonth getDate].
  assert (Hfl : forall Y Mo : Z,
            Qfloor (365.2425 * inject_Z Y + 30.6001 * inject_Z Mo)
            = ((3652425 * Y + 306001 * Mo) / 10000)%Z).
  { intros Y Mo.
    assert (E : 365.2425 * inject_Z Y + 30.6001 * inject_Z Mo
                == (3652425 * Y + 306001 * Mo)%Z # 10000).
    { rewrite (Qmake_Qdiv (3652425 * Y + 306001 * Mo) 10000).
      rewrite inject_Z_plus, !inject_Z_mult. field. }
    rewrite (Qfloor_comp _ _ E). reflexivity. }
  destruct (Z.ltb_spec (m + 1) 3) as [Hlt|Hge].
  - assert (Hq : Qltb (inject_Z m + 1) 3 = true).
    { apply Qltb_lt. change 3 with (inject_Z 3). change 1 with (inject_Z 1).
      rewrite <- inject_Z_plus, <- Zlt_Qlt. exact Hlt. }
    rewrite Hq.
    assert (EY : inject_Z y - 1 == inject_Z (y - 1))
      by (unfold Z.sub; rewrite inject_Z_plus; reflexivity).
    assert (EM : inject_Z m + 1 + 12 == inject_Z (m + 1 + 12))
      by (rewrite !inject_Z_plus; reflexivity).
    assert (E : 365.2425 * (inject_Z y - 1) + 30.6001 * (inject_Z m + 1 + 12)
                == 365.2425 * inject_Z (y - 1) + 30.6001 * inject_Z (m + 1 + 12))
      by (rewrite EY, EM; reflexivity).
    rewrite (Qfloor_comp _ _ E), Hfl, inject_Z_plus. reflexivity.
  - assert (Hq : Qltb (inject_Z m + 1) 3 = false).
    { apply Qltb_ge. change 3 with (inject_Z 3). change 1 with (inject_Z 1).
      rewrite <- inject_Z_plus, <- Zle_Qle. exact Hge. }
    rewrite Hq.
    assert (E : 365.2425 * inject_Z y + 30.6001 * (inject_Z m + 1)
                == 365.2425 * inject_Z y + 30.6001 * inject_Z (m + 1))
      by (rewrite inject_Z_plus; reflexivity).
    rewrite (Qfloor_comp _ _ E), Hfl, inject_Z_plus. reflexivity.
Qed.

(** In exact arithmetic [getJulianDay] grows by one per day inside a month
    and is strictly increasing on the dates whose day is at most 28; it is
    not injective on the calendar: 31 May 2021 and 1 June 2021 get the same
    Julian day, in exact arithmetic and on doubles. *)
Theorem getJulianDay_order :
  (forall (y m d k : Z),
     getJulianDay (N:=exact) {| getFullYear := y; getMonth := m; getDate := d + k |}
     == getJulianDay (N:=exact) {| getFullYear := y; getMonth := m; getDate := d |}
        + inject_Z k) /\
  (forall a b : Date,
     (0 <= getMonth a <= 11)%Z -> (1 <= getDate a <= 28)%Z ->
     (0 <= getMonth b <= 11)%Z -> (1 <= getDate b <= 28)%Z ->
     before a b ->
     getJulianDay (N:=exact) a < getJulianDay (N:=exact) b) /\
  getJulianDay (N:=exact) date_2021_05_31 == getJulianDay (N:=exact) date_2021_06_01 /\
  getJulianDay (N:=ieee) date_2021_05_31 = getJulianDay (N:=ieee) date_2021_06_01.
Proof.
  split_and!.
  - intros y m d k. rewrite !getJulianDay_exact. cbn [getFullYear getMonth getDate].
    rewrite !inject_Z_plus. ring.
  - intros a b Hma Hda Hmb Hdb Hab. rewrite !getJulianDay_exact.
    destruct a as [ya ma da], b as [yb mb db]. unfold before in Hab.
    cbn [getFullYear getMonth getDate] in *.
    apply Qplus_lt_l. rewrite <- Zlt_Qlt.
    assert (Hstep : forall u v : Z,
              (u + 280000 <= v -> u / 10000 + 28 <= v / 10000)%Z).
    { intros u v Huv. replace (u / 10000 + 28)%Z with ((u + 28 * 10000) / 10000)%Z
        by (apply Z.div_add; lia).
      apply Z.div_le_mono; lia. }
    destruct (Z.ltb_spec (ma + 1) 3), (Z.ltb_spec (mb + 1) 3);
      match goal with |- (?u / 10000 + _ < ?v / 10000 + _)%Z =>
        assert (Huv : (u + 280000 <= v \/ (u = v /\ da < db))%Z) by lia;
        destruct Huv as [Huv|[Huv Hd]];
        [pose proof (Hstep u v Huv); lia | rewrite Huv; lia]
      end.
  - vm_compute. reflexivity.
  - vm_compute. reflexivity.
Qed.
End JulianDay.

Section JulianDayIEEE.

Lemma getJulianDay_split {N : Number} (y m d : Z) :
  getJulianDay (N:=N) {| getFullYear := y; getMonth := m; getDate := d |}
  = (julianDayOfMonth y m + of_int d + lit 1721027.5)%num.
Proof.
  unfold getJulianDay, julianDayOfMonth. cbn [getFullYear getMonth getDate].
  destruct (nltb _ _); reflexivity.
Qed.

Lemma range_In (lo : Z) (n : nat) (z : Z) :
  (lo <= z < lo + Z.of_nat n)%Z -> In z (range lo n).
Proof.
  intros H. unfold range. apply in_map_iff. exists (Z.to_nat (z - lo)). split.
  - lia.
  - apply in_seq. lia.
Qed.

Lemma julianDayExactOn_sound (lo : Z) (n : nat) (y m d : Z) :
  julianDayExactOn lo n = true ->
  (lo <= y < lo + Z.of_nat n)%Z -> (0 <= m <= 11)%Z -> (1 <= d <= 31)%Z ->
  represents
    (getJulianDay (N:=ieee) {| getFullYear := y; getMonth := m; getDate := d |})
    (getJulianDay (N:=exact) {| getFullYear := y; getMonth := m; getDate := d |})
  = true.
Proof.
  intros H Hy Hm Hd. unfold julianDayExactOn in H.
  rewrite forallb_forall in H. specialize (H y (range_In lo n y Hy)).
  rewrite forallb_forall in H. specialize (H m (range_In 0 12 m ltac:(lia))).
  rewrite forallb_forall in H.
  specialize (H (d, of_int (Number:=ieee) d)).
  rewrite !getJulianDay_split. apply H.
  apply in_map_iff. exists d. split; [reflexivity|]. apply range_In. lia.
Qed.

Lemma julianDayExactOn_1900_2100 : julianDayExactOn 1900 201 = true.
Proof. vm_compute. reflexivity. Qed.

(** From 1900 to 2100 the double returned by [getJulianDay] stands for the
    exact value of the formula: the roundings of the computation cancel. *)
Theorem getJulianDay_ieee_exact (date : Date) :
  (1900 <= getFullYear date <= 2100)%Z ->
  (0 <= getMonth date <= 11)%Z ->
  (1 <= getDate date <= 31)%Z ->
  exists q : Q,
    float2Q (getJulianDay (N:=ieee) date) = Some q /\
    (q == getJulianDay (N:=exact) date)%Q.
Proof.
  intros Hy Hm Hd. destruct date as [y m d]. cbn [getFullYear getMonth getDate] in *.
  pose proof (julianDayExactOn_sound 1900 201 y m d julianDayExactOn_1900_2100
                ltac:(lia) Hm Hd) as H.
  unfold represents in H.
  destruct (float2Q _) as [q|]; [|discriminate].
  exists q. split; [reflexivity|]. apply Qeq_bool_iff, H.
Qed.

Lemma getJulianDay_ieee_exact_2021_04_12 :
  exists q : Q,
    float2Q (getJulianDay (N:=ieee) date_2021_04_12) = Some q /\
    (q == getJulianDay (N:=exact) date_2021_04_12)%Q.
Proof.
  apply (getJulianDay_ieee_exact date_2021_04_12); cbn; lia.
Defined.
End JulianDayIEEE.
